(** * Verification of the lagen.nu extraction and flattening pipeline

    The development embeds two Python modules:

    - [la-w-spider.py]: the link classifier of [LagenNuSpider.parse], the
      category registration of [parse_category] and the document builder
      of [parse_law], which stores one law dictionary per (category, law
      name) in [self.data];
    - [main.py]: [split_documents], whose inner [process_law] walks a law
      dictionary and appends one chunk dictionary per section, comment,
      paragraph and point to the shared list [chunks].

    Python values are the values [json.loads] produces (floating-point
    numbers left out); dictionaries keep their insertion order, so they
    are association lists.  Code that can raise returns an [outcome]. *)

From Stdlib Require Import List String Ascii ZArith Bool Lia Arith.
From Stdlib Require Import DecimalString DecimalZ Decimal.
Import ListNotations.
Local Open Scope list_scope.
Local Open Scope string_scope.
Set Warnings "-register-all".

(** ** Python values *)

Module Py.

(** A value as [json.loads] yields it.  A string holds one [ascii] per
    character; a dictionary lists its items in insertion order. *)
Inductive json :=
| JNull
| JBool (b : bool)
| JInt (z : Z)
| JStr (s : string)
| JList (l : list json)
| JDict (d : list (string * json)).

(** The exceptions the modelled code can raise. *)
Inductive exn :=
  KeyError | TypeError | AttributeError | IndexError | ValueError.

Inductive outcome (A : Type) :=
| Ok (a : A)
| Raise (e : exn).
Arguments Ok {A} a.
Arguments Raise {A} e.

Definition bind {A B} (m : outcome A) (k : A -> outcome B) : outcome B :=
  match m with
  | Ok a => k a
  | Raise e => Raise e
  end.

Declare Scope py_scope.
Delimit Scope py_scope with py.
Notation "x <- m ;; k" := (bind m (fun x => k))
  (at level 100, m at next level, right associativity) : py_scope.
Local Open Scope py_scope.

(** *** Dictionaries *)

Definition dict (V : Type) := list (string * V).

Fixpoint lookup {V} (k : string) (d : dict V) : option V :=
  match d with
  | [] => None
  | (k', v) :: rest => if String.eqb k k' then Some v else lookup k rest
  end.

(** [d[k] = v]: an existing key keeps its place, a new key goes last. *)
Fixpoint store {V} (k : string) (v : V) (d : dict V) : dict V :=
  match d with
  | [] => [(k, v)]
  | (k', v') :: rest =>
      if String.eqb k k' then (k', v) :: rest else (k', v') :: store k v rest
  end.

(** *** Strings *)

(** [needle in hay]. *)
Fixpoint contains (needle hay : string) : bool :=
  String.prefix needle hay ||
  match hay with
  | EmptyString => false
  | String _ rest => contains needle rest
  end.

(** [s.endswith(suffix)]. *)
Definition endswith (s suffix : string) : bool :=
  let n := String.length s in
  let m := String.length suffix in
  (m <=? n)%nat && String.eqb (String.substring (n - m) m s) suffix.

(** [s.split(sep)] for a one-character separator; [acc] is the segment
    read so far. *)
Fixpoint split_from (sep : ascii) (acc s : string) : list string :=
  match s with
  | EmptyString => [acc]
  | String c rest =>
      if Ascii.eqb c sep then acc :: split_from sep EmptyString rest
      else split_from sep (acc ++ String c EmptyString) rest
  end.

Definition split (sep : ascii) (s : string) : list string :=
  split_from sep EmptyString s.

(** [s.split('/')[-1]]; [split] never returns the empty list. *)
Definition last_segment (s : string) : string :=
  List.last (split "/"%char s) EmptyString.

(** [sep.join(parts)]. *)
Definition join (sep : string) (parts : list string) : string :=
  String.concat sep parts.

(** *** [str] and [repr] *)

Definition str_of_int (z : Z) : string :=
  NilZero.string_of_int (Z.to_int z).

Definition hex_digit (n : nat) : ascii :=
  match n with
  | 0 => "0" | 1 => "1" | 2 => "2" | 3 => "3" | 4 => "4"
  | 5 => "5" | 6 => "6" | 7 => "7" | 8 => "8" | 9 => "9"
  | 10 => "a" | 11 => "b" | 12 => "c" | 13 => "d" | 14 => "e"
  | _ => "f"
  end%char.

Definition hex_escape (c : ascii) : string :=
  let n := nat_of_ascii c in
  String "\" (String "x" (String (hex_digit (n / 16))
    (String (hex_digit (n mod 16)) EmptyString))).

(** Characters [repr] writes as they are: the printable ones.  Below 256
    the others are the control characters, the no-break space and the
    soft hyphen. *)
Definition printable (c : ascii) : bool :=
  let n := nat_of_ascii c in
  ((32 <=? n) && (n <? 127) || (161 <=? n) && negb (n =? 173))%nat.

Definition repr_char (quote c : ascii) : string :=
  if Ascii.eqb c quote || Ascii.eqb c "\"%char then
    String "\" (String c EmptyString)
  else if Ascii.eqb c "009"%char then "\t"
  else if Ascii.eqb c "010"%char then "\n"
  else if Ascii.eqb c "013"%char then "\r"
  else if printable c then String c EmptyString
  else hex_escape c.

Fixpoint has_char (c : ascii) (s : string) : bool :=
  match s with
  | EmptyString => false
  | String c' rest => Ascii.eqb c c' || has_char c rest
  end.

Fixpoint repr_chars (quote : ascii) (s : string) : string :=
  match s with
  | EmptyString => EmptyString
  | String c rest => repr_char quote c ++ repr_chars quote rest
  end.

(** [repr] of a string: single quotes, unless the string has a single
    quote and no double quote. *)
Definition repr_str (s : string) : string :=
  let quote :=
    if has_char "'"%char s && negb (has_char "034"%char s)
    then "034"%char else "'"%char in
  String quote (repr_chars quote s ++ String quote EmptyString).

Fixpoint repr (v : json) : string :=
  match v with
  | JNull => "None"
  | JBool true => "True"
  | JBool false => "False"
  | JInt z => str_of_int z
  | JStr s => repr_str s
  | JList l => "[" ++ join ", " (map repr l) ++ "]"
  | JDict d =>
      "{" ++ join ", "
               (map (fun kv => repr_str (fst kv) ++ ": " ++ repr (snd kv)) d)
          ++ "}"
  end.

(** [str(v)], which an f-string applies to a replacement field. *)
Definition str (v : json) : string :=
  match v with
  | JStr s => s
  | _ => repr v
  end.

(** *** Operations on values *)

(** [v.get(key, default)]; only dictionaries have the method. *)
Definition get (v : json) (key : string) (default : json) : outcome json :=
  match v with
  | JDict d =>
      match lookup key d with
      | Some x => Ok x
      | None => Ok default
      end
  | _ => Raise AttributeError
  end.

(** [v[key]] for a string key. *)
Definition getitem (v : json) (key : string) : outcome json :=
  match v with
  | JDict d =>
      match lookup key d with
      | Some x => Ok x
      | None => Raise KeyError
      end
  | _ => Raise TypeError
  end.

(** [v[0]]. *)
Definition first (v : json) : outcome json :=
  match v with
  | JList (x :: _) => Ok x
  | JList [] => Raise IndexError
  | JStr (String c _) => Ok (JStr (String c EmptyString))
  | JStr EmptyString => Raise IndexError
  | JDict _ => Raise KeyError
  | _ => Raise TypeError
  end.

Fixpoint chars (s : string) : list json :=
  match s with
  | EmptyString => []
  | String c rest => JStr (String c EmptyString) :: chars rest
  end.

(** The elements a [for] loop over [v] visits. *)
Definition iter (v : json) : outcome (list json) :=
  match v with
  | JList l => Ok l
  | JDict d => Ok (map (fun kv => JStr (fst kv)) d)
  | JStr s => Ok (chars s)
  | _ => Raise TypeError
  end.

(** [v.items()]. *)
Definition items (v : json) : outcome (list (string * json)) :=
  match v with
  | JDict d => Ok d
  | _ => Raise AttributeError
  end.

(** [enumerate(xs, start)]. *)
Fixpoint enumerate {A} (start : Z) (xs : list A) : list (Z * A) :=
  match xs with
  | [] => []
  | x :: rest => (start, x) :: enumerate (start + 1) rest
  end.

(** A list comprehension whose element expression can raise. *)
Fixpoint comprehension {A B} (f : A -> outcome B) (xs : list A)
  : outcome (list B) :=
  match xs with
  | [] => Ok []
  | x :: rest =>
      y <- f x ;;
      ys <- comprehension f rest ;;
      Ok (y :: ys)
  end.

(** A [for] loop whose body updates the state [S] and can raise. *)
Fixpoint for_each {A S} (body : A -> S -> outcome S) (xs : list A) (s : S)
  : outcome S :=
  match xs with
  | [] => Ok s
  | x :: rest =>
      s' <- body x s ;;
      for_each body rest s'
  end.

(** [produces P m]: the statement [m] leaves the list it is given in
    place and appends to it what it appends to the empty list, all of it
    satisfying [P]; when it raises, it raises whatever list it is given. *)
Definition produces {C} (P : C -> Prop) (m : list C -> outcome (list C))
  : Prop :=
  (forall s, m s = (out <- m [] ;; Ok (s ++ out)%list))
  /\ (forall out, m [] = Ok out -> Forall P out).


End Py.

Import Py.
Local Open Scope py_scope.

(** ** [main.py]: the tree flattener *)

Module Main.

(** The state of [split_documents] is its list [chunks]; [append] is
    [chunks.append(chunk)]. *)
Definition append (chunk : json) (chunks : list json) : list json :=
  List.app chunks [chunk].

(** The dictionary [law_metadata] that [process_law] builds first. *)
Definition law_metadata (law : json) : outcome json :=
  id <- get law "id" JNull ;;
  title <- get law "title" JNull ;;
  short_title <- get law "short_title" JNull ;;
  md1 <- get law "metadata" (JDict []) ;;
  department <- get md1 "department" JNull ;;
  md2 <- get law "metadata" (JDict []) ;;
  issued_date <- get md2 "issued_date" JNull ;;
  md3 <- get law "metadata" (JDict []) ;;
  last_amended <- get md3 "last_amended" (JDict []) ;;
  sfs <- get last_amended "sfs" JNull ;;
  Ok (JDict [("id", id); ("title", title); ("short_title", short_title);
             ("department", department); ("issued_date", issued_date);
             ("last_amended", sfs)]).

(** The chunk of a section's own text. *)
Definition section_chunk (law_metadata chapter section : json)
    (section_path : list string) : outcome json :=
  content <- get section "text" (JStr "") ;;
  chapter_title <- get chapter "title" JNull ;;
  section_number <- get section "number" JNull ;;
  amendments <- get section "amendments" (JList []) ;;
  amendments <- iter amendments ;;
  amendments <- comprehension (fun a => get a "law" JNull) amendments ;;
  case_law <- get section "case_law" (JList [JDict []]) ;;
  case_law <- first case_law ;;
  case_law_count <- get case_law "count" (JInt 0) ;;
  citations <- get section "citations" (JList [JDict []]) ;;
  citations <- first citations ;;
  citations_count <- get citations "count" (JInt 0) ;;
  Ok (JDict [("content", content);
             ("metadata",
              JDict [("path", JStr (join " > " section_path));
                     ("law_info", law_metadata);
                     ("chapter_title", chapter_title);
                     ("section_number", section_number);
                     ("amendments", JList amendments);
                     ("case_law_count", case_law_count);
                     ("citations_count", citations_count)])]).

Definition comment_chunk (law_metadata section comment : json)
    (section_path : list string) : outcome json :=
  content <- get comment "text" (JStr "") ;;
  comment_type <- get comment "type" JNull ;;
  section_number <- get section "number" JNull ;;
  Ok (JDict [("content", content);
             ("metadata",
              JDict [("path",
                      JStr (join " > " (List.app section_path ["Comment"])));
                     ("law_info", law_metadata);
                     ("comment_type", comment_type);
                     ("section_number", section_number)])]).

Definition para_chunk (law_metadata section paragraph : json)
    (section_path : list string) (i : Z) : outcome json :=
  content <- get paragraph "text" (JStr "") ;;
  section_number <- get section "number" JNull ;;
  Ok (JDict [("content", content);
             ("metadata",
              JDict [("path",
                      JStr (join " > "
                              (List.app section_path
                                 ["Paragraph " ++ str (JInt i)])));
                     ("law_info", law_metadata);
                     ("section_number", section_number)])]).

Definition point_chunk (law_metadata section point : json)
    (section_path : list string) (i j : Z) : outcome json :=
  section_number <- get section "number" JNull ;;
  Ok (JDict [("content", point);
             ("metadata",
              JDict [("path",
                      JStr (join " > "
                              (List.app section_path
                                 ["Paragraph " ++ str (JInt i);
                                  "Point " ++ str (JInt j)])));
                     ("law_info", law_metadata);
                     ("section_number", section_number)])]).

(** The body of the loop over the paragraphs of a section. *)
Definition process_paragraph (law_metadata section : json)
    (section_path : list string) (ip : Z * json) (chunks : list json)
  : outcome (list json) :=
  let (i, paragraph) := ip in
  chunk <- para_chunk law_metadata section paragraph section_path i ;;
  let chunks := append chunk chunks in
  points <- get paragraph "points" (JList []) ;;
  points <- iter points ;;
  for_each
    (fun (jp : Z * json) chunks =>
       let (j, point) := jp in
       chunk <- point_chunk law_metadata section point section_path i j ;;
       Ok (append chunk chunks))
    (enumerate 1 points) chunks.

(** The body of the loop over the sections of a chapter. *)
Definition process_section (law_metadata chapter : json)
    (chapter_path : list string) (section : json) (chunks : list json)
  : outcome (list json) :=
  number <- getitem section "number" ;;
  let section_path := List.app chapter_path ["Section " ++ str number] in
  chunk <- section_chunk law_metadata chapter section section_path ;;
  let chunks := append chunk chunks in
  comments <- get section "comments" (JList []) ;;
  comments <- iter comments ;;
  chunks <- for_each
              (fun comment chunks =>
                 chunk <- comment_chunk law_metadata section comment
                            section_path ;;
                 Ok (append chunk chunks))
              comments chunks ;;
  paragraphs <- get section "paragraphs" (JList []) ;;
  paragraphs <- iter paragraphs ;;
  for_each (process_paragraph law_metadata section section_path)
    (enumerate 1 paragraphs) chunks.

(** The body of the loop over the chapters of a law. *)
Definition process_chapter (law_metadata : json) (path : list string)
    (chapter : json) (chunks : list json) : outcome (list json) :=
  number <- getitem chapter "number" ;;
  let chapter_path := List.app path ["Chapter " ++ str number] in
  sections <- get chapter "sections" (JList []) ;;
  sections <- iter sections ;;
  for_each (process_section law_metadata chapter chapter_path)
    sections chunks.

Definition process_law (law : json) (path : list string)
    (chunks : list json) : outcome (list json) :=
  law_metadata <- law_metadata law ;;
  chapters <- get law "chapters" (JList []) ;;
  chapters <- iter chapters ;;
  for_each (process_chapter law_metadata path) chapters chunks.

Definition split_documents (legal_data : json) : outcome (list json) :=
  let chunks := [] in
  lagen <- get legal_data "lagen" (JDict []) ;;
  lagar <- get lagen "lagar" (JDict []) ;;
  lagar <- items lagar ;;
  for_each
    (fun (entry : string * json) chunks =>
       let (category, laws) := entry in
       laws <- items laws ;;
       for_each
         (fun (entry : string * json) chunks =>
            let (law_name, law_content) := entry in
            process_law law_content [category; law_name] chunks)
         laws chunks)
    lagar chunks.

(** The chunks of one law: [process_law] started on the empty list. *)
Definition law_chunks (category law_name : string) (law : json)
  : outcome (list json) :=
  process_law law [category; law_name] [].

(** The chunks of the laws of one category, law after law. *)
Definition category_chunks (entry : string * dict json)
  : outcome (list json) :=
  parts <- comprehension
             (fun law => law_chunks (fst entry) (fst law) (snd law))
             (snd entry) ;;
  Ok (List.concat parts).

(** Reading a chunk back, as [doc["content"]] and [doc["metadata"]] do. *)
Definition chunk_content (chunk : json) : outcome json :=
  getitem chunk "content".

Definition chunk_meta (key : string) (chunk : json) : outcome json :=
  metadata <- getitem chunk "metadata" ;;
  getitem metadata key.

(** The snapshot [info] is what [chunk] holds under [law_info]. *)
Definition carries (info : json) (chunk : json) : Prop :=
  chunk_meta "law_info" chunk = Ok info.

End Main.

(** ** [urllib.parse] *)

Module Url.

(** The components [urlsplit] returns. *)
Record SplitResult := {
  scheme : string;
  netloc : string;
  path : string;
  query : string;
  fragment : string
}.

(** [span stop s] cuts [s] before its first character satisfying [stop]. *)
Fixpoint span (stop : ascii -> bool) (s : string) : string * string :=
  match s with
  | EmptyString => (EmptyString, EmptyString)
  | String c rest =>
      if stop c then (EmptyString, s)
      else let (a, b) := span stop rest in (String c a, b)
  end.

Definition is_upper (c : ascii) : bool :=
  let n := nat_of_ascii c in ((65 <=? n) && (n <=? 90))%nat.

Definition is_lower (c : ascii) : bool :=
  let n := nat_of_ascii c in ((97 <=? n) && (n <=? 122))%nat.

Definition is_digit (c : ascii) : bool :=
  let n := nat_of_ascii c in ((48 <=? n) && (n <=? 57))%nat.

Definition is_alpha (c : ascii) : bool := is_upper c || is_lower c.

(** [c in scheme_chars]. *)
Definition scheme_char (c : ascii) : bool :=
  is_alpha c || is_digit c
  || Ascii.eqb c "+" || Ascii.eqb c "-" || Ascii.eqb c ".".

Fixpoint forallb_string (p : ascii -> bool) (s : string) : bool :=
  match s with
  | EmptyString => true
  | String c rest => p c && forallb_string p rest
  end.

Fixpoint lower (s : string) : string :=
  match s with
  | EmptyString => EmptyString
  | String c rest =>
      String (if is_upper c then ascii_of_nat (nat_of_ascii c + 32) else c)
             (lower rest)
  end.

(** [s.split(c, 1)] when [c] occurs in [s], else [(s, "")]. *)
Definition cut (c : ascii) (s : string) : string * string :=
  match span (Ascii.eqb c) s with
  | (a, String _ b) => (a, b)
  | (a, EmptyString) => (a, EmptyString)
  end.

(** [urlsplit(url)] on a URL that has no leading blank, no tab or line
    break and no bracket or non-ASCII character in its host: there
    [urlsplit] strips nothing and raises nothing.  [urlparse] returns
    the same [netloc], and the same [path] unless the URL has a [;]. *)
Definition urlsplit (url : string) : SplitResult :=
  let (scheme, url) :=
    match span (Ascii.eqb ":") url with
    | (String c0 pre, String _ rest) =>
        if is_alpha c0 && forallb_string scheme_char (String c0 pre)
        then (lower (String c0 pre), rest)
        else (EmptyString, url)
    | _ => (EmptyString, url)
    end in
  let (netloc, url) :=
    match url with
    | String "/" (String "/" rest) =>
        span (fun c => Ascii.eqb c "/" || Ascii.eqb c "?" || Ascii.eqb c "#")
          rest
    | _ => (EmptyString, url)
    end in
  let (url, fragment) := cut "#" url in
  let (url, query) := cut "?" url in
  {| scheme := scheme; netloc := netloc; path := url;
     query := query; fragment := fragment |}.

End Url.

(** ** [la-w-spider.py]: link classifier, builder and corpus *)

Module Spider.
Import Url.

(** *** [parse]: the link classifier *)

Definition disallowed_list : list string := ["/api/"; "/search/"; "/-/"].

(** The condition under which [parse] follows [href]; [parsed_href] is
    [urlparse(href)] and [base_domain] the netloc of the page. *)
Definition follow_link (base_domain : string) (parsed_href : SplitResult)
    (href : string) : bool :=
  (String.eqb (netloc parsed_href) base_domain
   || String.eqb (netloc parsed_href) EmptyString)
  && negb (existsb (fun disallowed => contains disallowed href)
             disallowed_list).

Section Crawl.

(** The library calls: [urlparse], [response.urljoin] and the
    constructor [scrapy.Request], each with the exception it can raise;
    a request is given by its URL. *)
Variable urlparse : string -> outcome SplitResult.
Variable urljoin : string -> string -> outcome string.
Variable new_request : string -> outcome string.

(** The loop of [parse] over [all_links]: the requests it yields, and
    the exception that ends it, if any. *)
Fixpoint parse_links (base_domain url : string) (all_links : list string)
  : list string * option exn :=
  match all_links with
  | [] => ([], None)
  | href :: rest =>
      match urlparse href with
      | Raise e => ([], Some e)
      | Ok parsed_href =>
          if follow_link base_domain parsed_href href then
            match (full_url <- urljoin url href ;; new_request full_url) with
            | Raise e => ([], Some e)
            | Ok request =>
                let (requests, e) := parse_links base_domain url rest in
                (request :: requests, e)
            end
          else parse_links base_domain url rest
      end
  end.

Definition parse (url : string) (all_links : list string)
  : list string * option exn :=
  match urlparse url with
  | Raise e => ([], Some e)
  | Ok parsed => parse_links (netloc parsed) url all_links
  end.

(** What the three calls do on a link of the page [url]; [parsed],
    [joined] and [requested] name what they return. *)
Variables (base_domain url : string).
Variable parsed : string -> SplitResult.
Variables (joined requested : string -> string).

(** [urlparse] returns on the link and, if the link passes the test,
    so do [urljoin] and [Request]. *)
Definition served (href : string) : Prop :=
  urlparse href = Ok (parsed href)
  /\ (follow_link base_domain (parsed href) href = true ->
      urljoin url href = Ok (joined href)
      /\ new_request (joined href) = Ok (requested (joined href))).

(** [urlparse] raises [e] on the link, or the link passes the test and
    [urljoin] or [Request] raises [e]. *)
Definition refused (href : string) (e : exn) : Prop :=
  urlparse href = Raise e
  \/ (urlparse href = Ok (parsed href)
      /\ follow_link base_domain (parsed href) href = true
      /\ (urljoin url href = Raise e
          \/ (urljoin url href = Ok (joined href)
              /\ new_request (joined href) = Raise e))).

End Crawl.

(** *** The corpus [self.data["lagen"]["lagar"]] *)

(** Category name to law name to law dictionary. *)
Definition corpus := dict (dict json).

(** [self.data] after [__init__]. *)
Definition init : corpus := [].

(** The whole of [self.data], as [closed] dumps it. *)
Definition data (lagar : corpus) : json :=
  JDict [("lagen",
          JDict [("lagar",
                  JDict (map (fun entry => (fst entry, JDict (snd entry)))
                           lagar))])].

(** The (category, law name, law) triples of a corpus, in the order
    [items()] lists them. *)
Definition triples (lagar : corpus) : list (string * string * json) :=
  flat_map (fun entry =>
              map (fun law => (fst entry, fst law, snd law)) (snd entry))
    lagar.

Definition find_law (lagar : corpus) (category law_name : string)
  : option json :=
  match lookup category lagar with
  | Some laws => lookup law_name laws
  | None => None
  end.

(** *** [parse_category] *)

(** The statement [self.data["lagen"]["lagar"][category] = {}]. *)
Definition register_category (category : string) (lagar : corpus) : corpus :=
  store category [] lagar.

Section Category.

Variable urljoin : string -> string -> outcome string.
Variable new_request : string -> outcome string.

(** The loop of [parse_category] over the links of the page: the
    requests [response.follow] makes, each with the category put in its
    [meta], and the exception that ends the loop, if any. *)
Fixpoint follow_laws (url category : string) (hrefs : list string)
  : list (string * string) * option exn :=
  match hrefs with
  | [] => ([], None)
  | href :: rest =>
      if negb (endswith href ".png") then
        match (full_url <- urljoin url href ;; new_request full_url) with
        | Raise e => ([], Some e)
        | Ok request =>
            let (requests, e) := follow_laws url category rest in
            ((request, category) :: requests, e)
        end
      else follow_laws url category rest
  end.

(** [parse_category]: the corpus after the callback, and what its loop
    yields. *)
Definition parse_category (url : string) (hrefs : list string)
    (lagar : corpus)
  : corpus * (list (string * string) * option exn) :=
  let category := last_segment url in
  let lagar := register_category category lagar in
  (lagar, follow_laws url category hrefs).

End Category.

(** The links of a category page that do not end in [.png], each with
    the category of the page: the links [parse_category] tries to
    follow. *)
Definition law_links (url : string) (hrefs : list string)
  : list (string * string) :=
  map (fun href => (href, last_segment url))
    (filter (fun href => negb (endswith href ".png")) hrefs).

(** *** [parse_law]: the document builder *)

(** What the selectors of [parse_law] return on a page: [get()] gives a
    string or [None], [getall()] a list, [len] of a selection a count.
    A field is named after the element and the selector read on it. *)
Record ParagraphNode := {
  paragraph_text : option string;        (* [::text] *)
  paragraph_li : list string             (* [li::text] *)
}.

Record SectionNode := {
  section_h3 : option string;            (* [h3::text] *)
  section_p : option string;             (* [p::text] *)
  section_comment : list string;         (* [.comment::text] *)
  section_amendment : list string;       (* [.amendment::text] *)
  section_case_law_reference : nat;      (* [.case-law-reference] *)
  section_citation_reference : nat;      (* [.citation-reference] *)
  section_paragraph : list ParagraphNode (* [.paragraph] *)
}.

Record ChapterNode := {
  chapter_h2 : option string;            (* [h2::text] *)
  chapter_h2_small : option string;      (* [h2 small::text] *)
  chapter_section : list SectionNode     (* [section.section] *)
}.

Record Response := {
  url : string;
  meta : dict string;
  h1 : option string;                    (* [h1::text] *)
  h1_small : option string;              (* [h1 small::text] *)
  department : option string;            (* [.department::text] *)
  issued_date : option string;           (* [.issued-date::text] *)
  last_amended : option string;          (* [.last-amended::text] *)
  section_chapter : list ChapterNode     (* [section.chapter] *)
}.

(** The result of [get()] as a Python value. *)
Definition text (t : option string) : json :=
  match t with
  | Some s => JStr s
  | None => JNull
  end.

Definition para_data (paragraph : ParagraphNode) : json :=
  JDict [("text", text (paragraph_text paragraph));
         ("points", JList (map JStr (paragraph_li paragraph)))].

Definition section_data (section : SectionNode) : json :=
  JDict [("number", text (section_h3 section));
         ("text", text (section_p section));
         ("comments",
          JList (map (fun comment =>
                        JDict [("text", JStr comment);
                               ("type", JStr "explanation")])
                   (section_comment section)));
         ("amendments",
          JList (map (fun amendment => JDict [("law", JStr amendment)])
                   (section_amendment section)));
         ("case_law",
          JList [JDict [("count",
                         JInt (Z.of_nat
                                 (section_case_law_reference section)))]]);
         ("citations",
          JList [JDict [("count",
                         JInt (Z.of_nat
                                 (section_citation_reference section)))]]);
         ("paragraphs",
          JList (map para_data (section_paragraph section)))].

Definition chapter_data (chapter : ChapterNode) : json :=
  JDict [("number", text (chapter_h2 chapter));
         ("title", text (chapter_h2_small chapter));
         ("sections", JList (map section_data (chapter_section chapter)))].

(** The dictionary [law] that [parse_law] builds. *)
Definition law_dict (response : Response) : json :=
  let law_name := last_segment (url response) in
  JDict [("id", JStr law_name);
         ("title", text (h1 response));
         ("short_title", text (h1_small response));
         ("metadata",
          JDict [("department", text (department response));
                 ("issued_date", text (issued_date response));
                 ("last_amended",
                  JDict [("sfs", text (last_amended response))])]);
         ("chapters",
          JList (map chapter_data (section_chapter response)))].

(** The statement
    [self.data["lagen"]["lagar"][category][law_name] = law]: the category
    must already be in the corpus. *)
Definition insert (category law_name : string) (law : json)
    (lagar : corpus) : outcome corpus :=
  match lookup category lagar with
  | None => Raise KeyError
  | Some laws => Ok (store category (store law_name law laws) lagar)
  end.

(** [parse_law]: the category comes from [response.meta]. *)
Definition parse_law (response : Response) (lagar : corpus)
  : outcome corpus :=
  match lookup "category" (meta response) with
  | None => Raise KeyError
  | Some category =>
      let law_name := last_segment (url response) in
      let law := law_dict response in
      insert category law_name law lagar
  end.

(** The two callbacks that change [self.data]. *)
Inductive mutation : corpus -> corpus -> Prop :=
| category_parsed (urljoin : string -> string -> outcome string)
    (new_request : string -> outcome string)
    (url : string) (hrefs : list string) (lagar : corpus) :
    mutation lagar
      (fst (parse_category urljoin new_request url hrefs lagar))
| law_parsed (response : Response) (lagar lagar' : corpus) :
    parse_law response lagar = Ok lagar' ->
    mutation lagar lagar'.

End Spider.

(** ** The flattener as the specification words it

    [Flatten] walks the page tree the builder read ([Response],
    [ChapterNode], [SectionNode], [ParagraphNode]) and lists the chunks in
    the order the specification fixes.  It is compared below with
    [Main.process_law] run on the dictionary [Spider.law_dict] builds. *)

Module Flatten.
Import Spider.

(** The law-info snapshot shared by the chunks of one law. *)
Definition law_info (law : Response) : json :=
  JDict [("id", JStr (last_segment (url law)));
         ("title", text (h1 law));
         ("short_title", text (h1_small law));
         ("department", text (department law));
         ("issued_date", text (issued_date law));
         ("last_amended", text (last_amended law))].

(** How a chapter or section number shows in a breadcrumb. *)
Definition shown (number : option string) : string := str (text number).

(** ["<category> > <law> > Chapter <n> > Section <n>"]. *)
Definition breadcrumb (category law_name : string) (chapter : ChapterNode)
    (section : SectionNode) : string :=
  category ++ " > " ++ law_name
    ++ " > Chapter " ++ shown (chapter_h2 chapter)
    ++ " > Section " ++ shown (section_h3 section).

(** The list [section_path] of which the breadcrumb is the join. *)
Definition section_path (category law_name : string) (chapter : ChapterNode)
    (section : SectionNode) : list string :=
  [category; law_name;
   "Chapter " ++ shown (chapter_h2 chapter);
   "Section " ++ shown (section_h3 section)].

Definition chunk (content : json) (metadata : list (string * json)) : json :=
  JDict [("content", content); ("metadata", JDict metadata)].

Definition section_chunk (info : json) (crumb : string)
    (chapter : ChapterNode) (section : SectionNode) : json :=
  chunk (text (section_p section))
    [("path", JStr crumb);
     ("law_info", info);
     ("chapter_title", text (chapter_h2_small chapter));
     ("section_number", text (section_h3 section));
     ("amendments", JList (map JStr (section_amendment section)));
     ("case_law_count",
      JInt (Z.of_nat (section_case_law_reference section)));
     ("citations_count",
      JInt (Z.of_nat (section_citation_reference section)))].

Definition comment_chunk (info : json) (crumb : string)
    (section : SectionNode) (comment : string) : json :=
  chunk (JStr comment)
    [("path", JStr (crumb ++ " > Comment"));
     ("law_info", info);
     ("comment_type", JStr "explanation");
     ("section_number", text (section_h3 section))].

Definition paragraph_chunk (info : json) (crumb : string)
    (section : SectionNode) (i : Z) (paragraph : ParagraphNode) : json :=
  chunk (text (paragraph_text paragraph))
    [("path", JStr (crumb ++ " > Paragraph " ++ str_of_int i));
     ("law_info", info);
     ("section_number", text (section_h3 section))].

Definition point_chunk (info : json) (crumb : string)
    (section : SectionNode) (i j : Z) (point : string) : json :=
  chunk (JStr point)
    [("path",
      JStr (crumb ++ " > Paragraph " ++ str_of_int i
              ++ " > Point " ++ str_of_int j));
     ("law_info", info);
     ("section_number", text (section_h3 section))].

(** A paragraph chunk, then one chunk per point, numbered from 1. *)
Definition flatten_paragraph (info : json) (crumb : string)
    (section : SectionNode) (ip : Z * ParagraphNode) : list json :=
  paragraph_chunk info crumb section (fst ip) (snd ip)
    :: map (fun jp => point_chunk info crumb section (fst ip) (fst jp)
                        (snd jp))
         (enumerate 1 (paragraph_li (snd ip))).

(** The section chunk, the comment chunks, then the paragraphs, numbered
    from 1, each followed by its points. *)
Definition flatten_section (info : json) (category law_name : string)
    (chapter : ChapterNode) (section : SectionNode) : list json :=
  let crumb := breadcrumb category law_name chapter section in
  (section_chunk info crumb chapter section
     :: map (comment_chunk info crumb section) (section_comment section)
     ++ flat_map (flatten_paragraph info crumb section)
          (enumerate 1 (section_paragraph section)))%list.

Definition flatten_chapter (info : json) (category law_name : string)
    (chapter : ChapterNode) : list json :=
  flat_map (flatten_section info category law_name chapter)
    (chapter_section chapter).

Definition flatten (category law_name : string) (law : Response)
  : list json :=
  flat_map (flatten_chapter (law_info law) category law_name)
    (section_chapter law).

(** The number of chunks the specification counts for a section. *)
Definition section_count (section : SectionNode) : nat :=
  1 + List.length (section_comment section)
    + List.length (section_paragraph section)
    + list_sum (map (fun p => List.length (paragraph_li p))
                  (section_paragraph section)).

Definition law_count (law : Response) : nat :=
  list_sum (map (fun chapter =>
                   list_sum (map section_count (chapter_section chapter)))
              (section_chapter law)).

(** The breadcrumb path of a chunk, if it has one. *)
Definition path_of (c : json) : option string :=
  match Main.chunk_meta "path" c with
  | Ok (JStr p) => Some p
  | _ => None
  end.

(** *** Where a chunk sits under its section *)

Inductive place :=
| AtSection
| AtComment
| AtParagraph (i : Z)
| AtPoint (i j : Z).

(** What a chunk's path adds to the breadcrumb of its section. *)
Definition tail (p : place) : string :=
  match p with
  | AtSection => ""
  | AtComment => " > Comment"
  | AtParagraph i => " > Paragraph " ++ str_of_int i
  | AtPoint i j =>
      " > Paragraph " ++ str_of_int i ++ " > Point " ++ str_of_int j
  end.








End Flatten.

(** ** Sample pages and corpora *)

Module Examples.
Import Spider.

(** A section numbered 5 with one comment and one paragraph of two
    points. *)
Definition section_5 : SectionNode := {|
  section_h3 := Some "5";
  section_p := Some "No one shall...";
  section_comment := ["See prop. 1998 for context"];
  section_amendment := ["SFS 2003:104"];
  section_case_law_reference := 0;
  section_citation_reference := 2;
  section_paragraph :=
    [{| paragraph_text := Some "The following applies:";
        paragraph_li := ["first point"; "second point"] |}]
|}.

Definition page (chapters : list ChapterNode) : Response := {|
  url := "https://lagen.nu/1998:204";
  meta := [("category", "sfs")];
  h1 := Some "Personuppgiftslag (1998:204)";
  h1_small := None;
  department := Some "Justitiedepartementet";
  issued_date := Some "1998-04-29";
  last_amended := None;
  section_chapter := chapters
|}.

Definition chapter_1 (sections : list SectionNode) : ChapterNode := {|
  chapter_h2 := Some "1";
  chapter_h2_small := Some "Inledning";
  chapter_section := sections
|}.

Definition law_1998 : Response := page [chapter_1 [section_5]].

(** A page without chapters. *)
Definition law_without_chapters : Response := page [].

(** A section with two comments. *)
Definition section_commented_twice : SectionNode := {|
  section_h3 := Some "5";
  section_p := Some "No one shall...";
  section_comment := ["See prop. 1998 for context"; "See also 7 a"];
  section_amendment := [];
  section_case_law_reference := 0;
  section_citation_reference := 0;
  section_paragraph := []
|}.

Definition law_commented_twice : Response :=
  page [chapter_1 [section_commented_twice]].

(** A section whose element has no [p]. *)
Definition section_without_text : SectionNode := {|
  section_h3 := Some "5";
  section_p := None;
  section_comment := [];
  section_amendment := [];
  section_case_law_reference := 0;
  section_citation_reference := 0;
  section_paragraph := []
|}.


Definition law_without_text : Response :=
  page [chapter_1 [section_without_text]].

(** A law dictionary whose chapter has no key [number]. *)
Definition law_without_chapter_number : json :=
  JDict [("id", JStr "1998:204");
         ("title", JStr "Personuppgiftslag (1998:204)");
         ("chapters",
          JList [JDict [("title", JStr "Inledning");
                        ("sections", JList [])]])].

(** A law dictionary whose [metadata] is [null]. *)
Definition law_with_null_metadata : json :=
  JDict [("id", JStr "1998:204");
         ("metadata", JNull);
         ("chapters", JList [])].

(** A link of the site whose query holds [/api/]. *)
Definition query_link : string := "https://lagen.nu/sok?q=/api/".


(** [urlparse] where it raises nothing, and [urljoin] on an absolute
    link, which it returns as it is. *)
Definition urlparse_plain (url : string) : outcome Url.SplitResult :=
  Ok (Url.urlsplit url).

Definition urljoin_absolute (base url : string) : string := url.

Definition urljoin_plain (base url : string) : outcome string :=
  Ok (urljoin_absolute base url).

(** [scrapy.Request(url)] on a URL of plain characters, which it leaves
    as they are: a URL without [://] that is no [about:] or [data:] URL
    misses its scheme. *)
Definition new_request_checked (url : string) : outcome string :=
  if contains "://" url || String.prefix "about:" url
     || String.prefix "data:" url
  then Ok url
  else Raise ValueError.

(** A link that passes the test of [parse] and has no [://]. *)
Definition mail_link : string := "mailto:info@lagen.nu".

Definition about_link : string := "https://lagen.nu/om/".

(** Two category pages whose URLs end alike, and the corpus as the
    callbacks leave it: the first category page, a law page reached from
    it, the second category page. *)
Definition category_page_1 : string := "https://lagen.nu/sfs/index".

Definition law_page : Response := {|
  url := "https://lagen.nu/1998:204";
  meta := [("category", "index")];
  h1 := Some "Personuppgiftslag (1998:204)";
  h1_small := None;
  department := None;
  issued_date := None;
  last_amended := None;
  section_chapter := []
|}.

Definition corpus_1 : corpus :=
  fst (parse_category urljoin_plain new_request_checked category_page_1
         ["https://lagen.nu/1998:204"] init).

Definition corpus_2 : corpus :=
  store "index" [("1998:204", law_dict law_page)] corpus_1.


End Examples.

(** ** The crawl as a whole *)

Module Crawl.
Import Spider.

(** The corpora the callbacks can leave behind: [self.data] after
    [__init__] and after any number of [parse_category] and [parse_law]
    callbacks. *)
Inductive reachable : corpus -> Prop :=
| reachable_init : reachable init
| reachable_step (lagar lagar' : corpus) :
    reachable lagar -> mutation lagar lagar' -> reachable lagar'.

(** The keys of a dictionary, in insertion order. *)
Definition keys {V} (d : dict V) : list string := map fst d.

(** A law dictionary that [parse_law] built for a page whose URL ends
    in [law_name]. *)
Definition built_as (law_name : string) (law : json) : Prop :=
  exists response,
    law = law_dict response /\ last_segment (url response) = law_name.

End Crawl.

(** The crawl with its queue of law requests: [pending] lists the links
    [parse_category] has tried to follow, each with the category it
    puts in [meta] (the requests it makes are among them); the response
    to such a request carries that [meta]. *)
Module Queue.
Import Spider.

Record state := {
  lagar : corpus;
  pending : list (string * string)
}.

Definition start : state := {| lagar := init; pending := [] |}.

Inductive step : state -> state -> Prop :=
| step_category (urljoin : string -> string -> outcome string)
    (new_request : string -> outcome string)
    (url : string) (hrefs : list string) (s : state) :
    step s {| lagar := fst (parse_category urljoin new_request url hrefs
                              (lagar s));
              pending := (pending s ++ law_links url hrefs)%list |}
| step_law (response : Response) (href category : string) (s : state)
    (lagar' : corpus) :
    In (href, category) (pending s) ->
    lookup "category" (meta response) = Some category ->
    parse_law response (lagar s) = Ok lagar' ->
    step s {| lagar := lagar'; pending := pending s |}.

Inductive reachable : state -> Prop :=
| reachable_start : reachable start
| reachable_step (s s' : state) : reachable s -> step s s' -> reachable s'.

End Queue.

(** What [response.follow] does on a link of a category page. *)
Module Follow.

Section Follow.

Variable urljoin : string -> string -> outcome string.
Variable new_request : string -> outcome string.
Variable url : string.
Variables (joined requested : string -> string).

(** If the link does not end in [.png], [urljoin] and [Request] return
    on it. *)
Definition followed (href : string) : Prop :=
  endswith href ".png" = false ->
  urljoin url href = Ok (joined href)
  /\ new_request (joined href) = Ok (requested (joined href)).

(** The link does not end in [.png] and [urljoin] or [Request] raises
    [e] on it. *)
Definition unfollowed (href : string) (e : exn) : Prop :=
  endswith href ".png" = false
  /\ (urljoin url href = Raise e
      \/ (urljoin url href = Ok (joined href)
          /\ new_request (joined href) = Raise e)).

End Follow.

(** The links of a sample category page: a law, an image, a mail
    address, a second law. *)
Definition sample_hrefs : list string :=
  ["https://lagen.nu/1998:204"; "https://lagen.nu/logo.png";
   "mailto:info@lagen.nu"; "https://lagen.nu/1998:808"].

End Follow.

(** ** [main.py]: reading the bucket *)

Module Reader.
Import Main.

(** A blob of the bucket: its name, and what
    [json.loads(blob.download_as_text())] returns or raises. *)
Record Blob := {
  name : string;
  loaded : outcome json
}.

(** The body of the loop of [read_documents] over the blobs. *)
Definition read_blob (blob : Blob) (all_documents : list json)
  : outcome (list json) :=
  if endswith (name blob) ".json" then
    legal_data <- loaded blob ;;
    documents <- split_documents legal_data ;;
    Ok (all_documents ++ documents)%list
  else Ok all_documents.

(** [read_documents]; [listing] is what [list(bucket.list_blobs())]
    returns or raises.  Any exception gives the empty list. *)
Definition read_documents (listing : outcome (list Blob)) : list json :=
  match (blobs <- listing ;; for_each read_blob blobs []) with
  | Ok all_documents => all_documents
  | Raise _ => []
  end.

(** The documents of one blob. *)
Definition documents_of (blob : Blob) : outcome (list json) :=
  legal_data <- loaded blob ;;
  split_documents legal_data.

Definition is_json (blob : Blob) : bool := endswith (name blob) ".json".

End Reader.

(** ** [main.py]: filling the vector store *)

Module Store.
Import Main.

(** [{**metadata, "chunk_id": f"chunk_{idx}"}]: only a dictionary can be
    unpacked. *)
Definition with_chunk_id (metadata : json) (idx : Z) : outcome json :=
  match metadata with
  | JDict d =>
      Ok (JDict (store "chunk_id" (JStr ("chunk_" ++ str (JInt idx))) d))
  | _ => Raise TypeError
  end.

(** The body of the loop of [setup_vector_store]; [calls] lists the
    arguments [texts[0]] and [metadatas[0]] of the calls of [add_texts]
    made so far. *)
Definition add_document (entry : Z * json) (calls : list (json * json))
  : outcome (list (json * json)) :=
  let (idx, doc) := entry in
  content <- getitem doc "content" ;;
  metadata <- getitem doc "metadata" ;;
  metadata <- with_chunk_id metadata idx ;;
  Ok (calls ++ [(content, metadata)])%list.

(** The calls of [add_texts] that [setup_vector_store] makes. *)
Definition add_texts_calls (documents : list json)
  : outcome (list (json * json)) :=
  for_each add_document (enumerate 0 documents) [].

(** The [chunk_id] of a call. *)
Definition chunk_id (call : json * json) : outcome json :=
  getitem (snd call) "chunk_id".

(** The call made for the document [snd entry] at index [fst entry]: its
    text is the content of the document, its [chunk_id] is made of the
    index, and every other key of its metadata reads as in the
    document. *)
Definition call_of (entry : Z * json) (call : json * json) : Prop :=
  getitem (snd entry) "content" = Ok (fst call)
  /\ chunk_id call = Ok (JStr ("chunk_" ++ str_of_int (fst entry)))
  /\ forall key,
       key <> "chunk_id" ->
       getitem (snd call) key = chunk_meta key (snd entry).

End Store.

(** ** The shape of laws and chunks *)

Module Shape.
Import Flatten.

(** A chunk whose path is the join of [section_path] followed by the
    tail of a place. *)
Definition located (section_path : list string) (chunk : json) : Prop :=
  exists content rest p,
    chunk = JDict [("content", content);
                   ("metadata",
                    JDict (("path",
                            JStr (join " > " section_path ++ tail p))
                             :: rest))].

(** A chunk under some chapter and section of the law at [path]. *)
Definition under (path : list string) (chunk : json) : Prop :=
  exists chapter section,
    located (List.app path ["Chapter " ++ str chapter;
                            "Section " ++ str section]) chunk.

(** The elements the loop [for x in d.get(key, [])] runs over. *)
Definition loop_over (d : json) (key : string) : outcome (list json) :=
  v <- get d key (JList []) ;; iter v.

(** A chunk whose path is the join of [section_path] followed by the
    tail of the place [p]. *)
Definition sited (section_path : list string) (p : place) (chunk : json)
  : Prop :=
  exists content rest,
    chunk = JDict [("content", content);
                   ("metadata",
                    JDict (("path",
                            JStr (join " > " section_path ++ tail p))
                             :: rest))].

(** The section value has the place [p]: a comment when the loop over
    its comments is not empty, paragraph [i] when the loop over its
    paragraphs has an [i]-th element, counted from 1, and point [j] of
    paragraph [i] when the loop over the points of that paragraph has a
    [j]-th element. *)
Definition within (section : json) (p : place) : Prop :=
  match p with
  | AtSection => True
  | AtComment =>
      exists comments comment,
        loop_over section "comments" = Ok comments /\ In comment comments
  | AtParagraph i =>
      exists paragraphs paragraph,
        loop_over section "paragraphs" = Ok paragraphs
        /\ In (i, paragraph) (enumerate 1 paragraphs)
  | AtPoint i j =>
      exists paragraphs paragraph points point,
        loop_over section "paragraphs" = Ok paragraphs
        /\ In (i, paragraph) (enumerate 1 paragraphs)
        /\ loop_over paragraph "points" = Ok points
        /\ In (j, point) (enumerate 1 points)
  end.

(** A chunk of the law value [law], stored as [law_name] of [category]:
    its path names a chapter of the law by the value of its [number], a
    section of that chapter by the value of its [number], and a place
    that the section has. *)
Definition placed (category law_name : string) (law chunk : json) : Prop :=
  exists chapters chapter chapter_number sections section section_number p,
    loop_over law "chapters" = Ok chapters
    /\ In chapter chapters
    /\ getitem chapter "number" = Ok chapter_number
    /\ loop_over chapter "sections" = Ok sections
    /\ In section sections
    /\ getitem section "number" = Ok section_number
    /\ within section p
    /\ path_of chunk
       = Some (category ++ " > " ++ law_name
                 ++ " > Chapter " ++ str chapter_number
                 ++ " > Section " ++ str section_number ++ tail p).

(** The key is missing or its value passes [ok]. *)
Definition absent_or (ok : json -> bool) (key : string)
    (d : list (string * json)) : bool :=
  match lookup key d with
  | None => true
  | Some v => ok v
  end.

Definition present (key : string) (d : list (string * json)) : bool :=
  match lookup key d with
  | None => false
  | Some _ => true
  end.

Definition is_dict (v : json) : bool :=
  match v with
  | JDict _ => true
  | _ => false
  end.

Definition is_list (v : json) : bool :=
  match v with
  | JList _ => true
  | _ => false
  end.

Definition list_of (ok : json -> bool) (v : json) : bool :=
  match v with
  | JList l => forallb ok l
  | _ => false
  end.

(** A list whose first element is a dictionary. *)
Definition counted (v : json) : bool :=
  match v with
  | JList (JDict _ :: _) => true
  | _ => false
  end.

Definition paragraph_ok (paragraph : json) : bool :=
  match paragraph with
  | JDict d => absent_or is_list "points" d
  | _ => false
  end.

Definition section_ok (section : json) : bool :=
  match section with
  | JDict d =>
      present "number" d
      && absent_or (list_of is_dict) "amendments" d
      && absent_or counted "case_law" d
      && absent_or counted "citations" d
      && absent_or (list_of is_dict) "comments" d
      && absent_or (list_of paragraph_ok) "paragraphs" d
  | _ => false
  end.

Definition chapter_ok (chapter : json) : bool :=
  match chapter with
  | JDict d =>
      present "number" d && absent_or (list_of section_ok) "sections" d
  | _ => false
  end.

Definition metadata_ok (metadata : json) : bool :=
  match metadata with
  | JDict d => absent_or is_dict "last_amended" d
  | _ => false
  end.

(** A law dictionary in which every key but the chapter and section
    [number] may be missing, and every key that is there holds a value
    of the type the builder gives it. *)
Definition law_ok (law : json) : bool :=
  match law with
  | JDict d =>
      absent_or metadata_ok "metadata" d
      && absent_or (list_of chapter_ok) "chapters" d
  | _ => false
  end.

(** A law with one chapter and one section that hold a number only. *)
Definition sparse_law : json :=
  JDict [("chapters",
          JList [JDict [("number", JStr "1");
                        ("sections",
                         JList [JDict [("number", JNull)]])]])].

End Shape.

(** ** [main.py]: the query loop *)

Module Session.

(** The characters [str.strip] removes, below 256. *)
Definition is_space (c : ascii) : bool :=
  let n := nat_of_ascii c in
  ((9 <=? n) && (n <=? 13) || (28 <=? n) && (n <=? 32)
   || (n =? 133) || (n =? 160))%nat.

Fixpoint lstrip (s : string) : string :=
  match s with
  | EmptyString => EmptyString
  | String c rest => if is_space c then lstrip rest else s
  end.

Fixpoint rstrip (s : string) : string :=
  match s with
  | EmptyString => EmptyString
  | String c rest =>
      match rstrip rest with
      | EmptyString => if is_space c then EmptyString
                       else String c EmptyString
      | kept => String c kept
      end
  end.

(** [s.strip()]. *)
Definition strip (s : string) : string := rstrip (lstrip s).

(** [s.lower()], below 256: the letters A to Z and the capital letters
    from 192 to 222, the multiplication sign apart. *)
Definition lower_char (c : ascii) : ascii :=
  let n := nat_of_ascii c in
  if ((65 <=? n) && (n <=? 90)
      || (192 <=? n) && (n <=? 222) && negb (n =? 215))%nat
  then ascii_of_nat (n + 32) else c.

Fixpoint lower (s : string) : string :=
  match s with
  | EmptyString => EmptyString
  | String c rest => String (lower_char c) (lower rest)
  end.

(** How the loop ends: by [break], or by [input] raising [EOFError] when
    there is no line left. *)
Inductive ending := Exited | InputClosed.

(** The [while True] loop of [main]; [inputs] lists the lines [input]
    returns and [query_llm] answers a query (it catches every exception
    itself). *)
Fixpoint query_loop {A} (query_llm : string -> A) (inputs : list string)
    (session_history : list (string * A))
  : list (string * A) * ending :=
  match inputs with
  | [] => (session_history, InputClosed)
  | line :: rest =>
      let user_query := strip line in
      if String.eqb (lower user_query) "exit" then (session_history, Exited)
      else if (String.length user_query <? 3)%nat then
        query_loop query_llm rest session_history
      else
        let response := query_llm user_query in
        query_loop query_llm rest
          (session_history ++ [(user_query, response)])%list
  end.

Definition is_exit (user_query : string) : bool :=
  String.eqb (lower user_query) "exit".

(** The queries before the first [exit]. *)
Fixpoint until_exit (queries : list string) : list string :=
  match queries with
  | [] => []
  | q :: rest => if is_exit q then [] else q :: until_exit rest
  end.

End Session.

(** ** Sample blobs and documents *)

Module Samples.
Import Spider Main.

Definition blob_data : Reader.Blob := {|
  Reader.name := "lagen_nu_data.json";
  Reader.loaded := Ok (data [("sfs", [("1998:204",
                                       law_dict Examples.law_1998)])])
|}.

Definition blob_notes : Reader.Blob := {|
  Reader.name := "notes.txt";
  Reader.loaded := Raise ValueError
|}.

Definition blob_broken : Reader.Blob := {|
  Reader.name := "broken.json";
  Reader.loaded := Raise ValueError
|}.

(** The documents of a blob, none when it fails. *)
Definition documents (blob : Reader.Blob) : list json :=
  match Reader.documents_of blob with
  | Ok documents => documents
  | Raise _ => []
  end.

Definition legal_data : json :=
  data [("sfs", [("1998:204", law_dict Examples.law_commented_twice)])].

(** The corpus after a category page and the page of a law with one
    chapter, one section, a comment and a paragraph of two points. *)
Definition law_response : Response := {|
  url := "https://lagen.nu/1998:204";
  meta := [("category", "index")];
  h1 := Some "Personuppgiftslag (1998:204)";
  h1_small := None;
  department := Some "Justitiedepartementet";
  issued_date := Some "1998-04-29";
  last_amended := None;
  section_chapter := [Examples.chapter_1 [Examples.section_5]]
|}.

Definition crawled : corpus :=
  store "index" [("1998:204", law_dict law_response)] Examples.corpus_1.

Definition chunks : list json :=
  match split_documents legal_data with
  | Ok documents => documents
  | Raise _ => []
  end.

Definition calls : list (json * json) :=
  match Store.add_texts_calls chunks with
  | Ok calls => calls
  | Raise _ => []
  end.

End Samples.

(** ** Loops and strings: general lemmas *)

(** A loop over [map g xs] whose body appends [f x] to the list of chunks
    appends the concatenation of the [f x]. *)
Lemma for_each_appends {A B C} (g : A -> B)
    (body : B -> list C -> outcome (list C)) (f : A -> list C)
    (xs : list A) :
  (forall x s, In x xs -> body (g x) s = Ok (s ++ f x)%list) ->
  forall s, for_each body (map g xs) s = Ok (s ++ flat_map f xs)%list.
Proof.
  induction xs as [|x xs IH]; intros Hbody s; simpl.
  - now rewrite app_nil_r.
  - rewrite (Hbody x s (or_introl eq_refl)); simpl.
    rewrite IH by (intros; apply Hbody; now right).
    now rewrite <- app_assoc.
Qed.

Lemma comprehension_map {A B C} (g : A -> B) (f : B -> outcome C)
    (h : A -> C) (xs : list A) :
  (forall x, In x xs -> f (g x) = Ok (h x)) ->
  comprehension f (map g xs) = Ok (map h xs).
Proof.
  induction xs as [|x xs IH]; intros Hf; simpl.
  - reflexivity.
  - rewrite (Hf x (or_introl eq_refl)); simpl.
    rewrite IH by (intros; apply Hf; now right).
    reflexivity.
Qed.

Lemma enumerate_map {A B} (g : A -> B) (xs : list A) (start : Z) :
  enumerate start (map g xs)
  = map (fun ix => (fst ix, g (snd ix))) (enumerate start xs).
Proof.
  revert start; induction xs as [|x xs IH]; intros start; simpl.
  - reflexivity.
  - now rewrite IH.
Qed.

Lemma enumerate_length {A} (xs : list A) (start : Z) :
  List.length (enumerate start xs) = List.length xs.
Proof.
  revert start; induction xs as [|x xs IH]; intros start; simpl;
    [reflexivity | now rewrite IH].
Qed.

Lemma flat_map_singleton {A B} (f : A -> B) (xs : list A) :
  flat_map (fun x => [f x]) xs = map f xs.
Proof.
  induction xs as [|x xs IH]; simpl; [reflexivity | now rewrite IH].
Qed.

Lemma string_app_assoc (a b c : string) : (a ++ b) ++ c = a ++ (b ++ c).
Proof.
  induction a as [|x a IH]; simpl; [reflexivity | now rewrite IH].
Qed.

Lemma join_snoc (sep : string) (parts : list string) (p last : string) :
  join sep ((p :: parts) ++ [last])%list
  = join sep (p :: parts) ++ sep ++ last.
Proof.
  revert p; induction parts as [|q parts IH]; intros p.
  - reflexivity.
  - change (join sep ((p :: q :: parts) ++ [last])%list)
      with (p ++ sep ++ join sep ((q :: parts) ++ [last])%list).
    rewrite IH.
    change (join sep (p :: q :: parts))
      with (p ++ sep ++ join sep (q :: parts)).
    now rewrite !string_app_assoc.
Qed.

Lemma join_snoc2 (sep : string) (parts : list string) (p a b : string) :
  join sep ((p :: parts) ++ [a; b])%list
  = join sep (p :: parts) ++ sep ++ a ++ sep ++ b.
Proof.
  change [a; b] with ([a] ++ [b])%list.
  rewrite app_assoc.
  change ((p :: parts) ++ [a])%list with (p :: (parts ++ [a]))%list.
  rewrite join_snoc.
  change (p :: (parts ++ [a]))%list with ((p :: parts) ++ [a])%list.
  rewrite join_snoc. now rewrite !string_app_assoc.
Qed.

(** ** The flattener on a built law *)

Module FlattenProofs.
Import Spider Flatten.

Section Section_loop.

Variables (info : json) (category law_name : string).
Variables (chapter : ChapterNode) (section : SectionNode).

#[local] Abbreviation section_path :=
  (section_path category law_name chapter section).
#[local] Abbreviation crumb :=
  (breadcrumb category law_name chapter section).

Lemma crumb_join_1 (a : string) :
  join " > " (section_path ++ [a])%list = crumb ++ " > " ++ a.
Proof. unfold section_path. now rewrite join_snoc. Qed.

Lemma crumb_join_2 (a b : string) :
  join " > " (section_path ++ [a; b])%list
  = crumb ++ " > " ++ a ++ " > " ++ b.
Proof. unfold section_path. now rewrite join_snoc2. Qed.

Lemma section_chunk_built :
  Main.section_chunk info (chapter_data chapter) (section_data section)
    section_path
  = Ok (section_chunk info crumb chapter section).
Proof.
  unfold Main.section_chunk, section_data, chapter_data; simpl.
  rewrite (comprehension_map _ _ JStr) by reflexivity.
  reflexivity.
Qed.

Lemma comment_chunk_built (comment : string) :
  Main.comment_chunk info (section_data section)
    (JDict [("text", JStr comment); ("type", JStr "explanation")])
    section_path
  = Ok (comment_chunk info crumb section comment).
Proof.
  unfold Main.comment_chunk. now rewrite crumb_join_1.
Qed.

Lemma para_chunk_built (i : Z) (paragraph : ParagraphNode) :
  Main.para_chunk info (section_data section) (para_data paragraph)
    section_path i
  = Ok (paragraph_chunk info crumb section i paragraph).
Proof.
  unfold Main.para_chunk. now rewrite crumb_join_1.
Qed.

Lemma point_chunk_built (i j : Z) (point : string) :
  Main.point_chunk info (section_data section) (JStr point)
    section_path i j
  = Ok (point_chunk info crumb section i j point).
Proof.
  unfold Main.point_chunk. rewrite crumb_join_2.
  unfold point_chunk. now rewrite !string_app_assoc.
Qed.

Lemma process_paragraph_built (ip : Z * ParagraphNode) (chunks : list json) :
  Main.process_paragraph info (section_data section) section_path
    (fst ip, para_data (snd ip)) chunks
  = Ok (chunks ++ flatten_paragraph info crumb section ip)%list.
Proof.
  destruct ip as [i paragraph].
  unfold Main.process_paragraph. cbn [fst snd].
  rewrite para_chunk_built. cbn [bind].
  unfold para_data at 1. cbn [get lookup String.eqb Ascii.eqb Bool.eqb bind iter].
  rewrite enumerate_map.
  rewrite (for_each_appends _ _
             (fun jp : Z * string =>
                [point_chunk info crumb section i (fst jp) (snd jp)])).
  - unfold Main.append, flatten_paragraph. cbn [fst snd].
    now rewrite flat_map_singleton, <- app_assoc.
  - intros [j point] s _. cbn [fst snd].
    now rewrite point_chunk_built.
Qed.

Lemma process_section_built (chunks : list json) :
  Main.process_section info (chapter_data chapter)
    [category; law_name; "Chapter " ++ shown (chapter_h2 chapter)]
    (section_data section) chunks
  = Ok (chunks ++ flatten_section info category law_name chapter section)%list.
Proof.
  unfold Main.process_section.
  unfold section_data at 1.
  cbn [getitem lookup String.eqb Ascii.eqb Bool.eqb bind].
  change (List.app
            [category; law_name; "Chapter " ++ shown (chapter_h2 chapter)]
            ["Section " ++ str (text (section_h3 section))])
    with section_path.
  rewrite section_chunk_built. cbn [bind].
  unfold section_data at 1.
  cbn [get lookup String.eqb Ascii.eqb Bool.eqb bind iter].
  rewrite (for_each_appends _ _
             (fun comment => [comment_chunk info crumb section comment])).
  - cbn [bind].
    unfold section_data at 1.
    cbn [get lookup String.eqb Ascii.eqb Bool.eqb bind iter].
    rewrite enumerate_map.
    rewrite (for_each_appends _ _ (flatten_paragraph info crumb section)).
    + unfold Main.append, flatten_section. fold crumb.
      now rewrite flat_map_singleton, <- !app_assoc.
    + intros ip s _. apply process_paragraph_built.
  - intros comment s _. now rewrite comment_chunk_built.
Qed.

End Section_loop.

Lemma process_chapter_built (info : json) (category law_name : string)
    (chapter : ChapterNode) (chunks : list json) :
  Main.process_chapter info [category; law_name] (chapter_data chapter)
    chunks
  = Ok (chunks ++ flatten_chapter info category law_name chapter)%list.
Proof.
  unfold Main.process_chapter.
  unfold chapter_data at 1.
  cbn [getitem get lookup String.eqb Ascii.eqb Bool.eqb bind iter].
  apply for_each_appends.
  intros section s _. apply process_section_built.
Qed.

(** [process_law] on the dictionary built from a page appends the chunks
    of [flatten], in that order. *)
Lemma process_law_built (category law_name : string) (law : Response)
    (chunks : list json) :
  Main.process_law (law_dict law) [category; law_name] chunks
  = Ok (chunks ++ flatten category law_name law)%list.
Proof.
  unfold Main.process_law.
  change (Main.law_metadata (law_dict law)) with (Ok (law_info law)).
  cbn [bind]. unfold law_dict.
  cbn [get lookup String.eqb Ascii.eqb Bool.eqb bind iter].
  apply for_each_appends.
  intros chapter s _. apply process_chapter_built.
Qed.

End FlattenProofs.

(** ** What a loop of [process_law] does to the list of chunks

    The loops of [process_law] only append.  [produces P m] says that the
    statement [m] leaves the chunks it is given in place, appends the
    chunks it would append to the empty list, and that those satisfy [P];
    if [m] raises, it raises whatever list it is given. *)

Section Producers.

Context {C : Type} (P : C -> Prop).

Lemma produces_skip : produces P (fun s => Ok s).
Proof.
  split.
  - intros s. simpl. now rewrite app_nil_r.
  - intros out [= <-]. constructor.
Qed.

Lemma produces_pure {A} (e : outcome A) (k : A -> list C -> outcome (list C)) :
  (forall a, e = Ok a -> produces P (k a)) ->
  produces P (fun s => a <- e ;; k a s).
Proof.
  intros Hk. destruct e as [a|err]; simpl.
  - exact (Hk a eq_refl).
  - split; [reflexivity | discriminate].
Qed.

Lemma produces_emit (c : C) (m : list C -> outcome (list C)) :
  P c -> produces P m -> produces P (fun s => m (s ++ [c])%list).
Proof.
  intros Hc [Happ Hall]. split.
  - intros s. rewrite (Happ (s ++ [c])%list). simpl.
    rewrite (Happ [c]).
    destruct (m []) as [out|err]; simpl; [|reflexivity].
    now rewrite <- app_assoc.
  - intros out. simpl. rewrite (Happ [c]).
    destruct (m []) as [out'|err]; simpl; [|discriminate].
    intros [= <-]. constructor; [exact Hc | now apply Hall].
Qed.

Lemma produces_seq (m1 m2 : list C -> outcome (list C)) :
  produces P m1 -> produces P m2 ->
  produces P (fun s => s' <- m1 s ;; m2 s').
Proof.
  intros [Happ1 Hall1] [Happ2 Hall2]. split.
  - intros s. rewrite (Happ1 s).
    destruct (m1 []) as [out1|err]; simpl; [|reflexivity].
    rewrite (Happ2 (s ++ out1)%list), (Happ2 out1).
    destruct (m2 []) as [out2|err]; simpl; [|reflexivity].
    now rewrite app_assoc.
  - intros out.
    destruct (m1 []) as [out1|err] eqn:E1; simpl; [|discriminate].
    rewrite (Happ2 out1).
    destruct (m2 []) as [out2|err] eqn:E2; simpl; [|discriminate].
    intros [= <-]. apply Forall_app. split; [now apply Hall1 | now apply Hall2].
Qed.

Lemma produces_for_each {A} (body : A -> list C -> outcome (list C))
    (xs : list A) :
  (forall x, In x xs -> produces P (body x)) ->
  produces P (for_each body xs).
Proof.
  induction xs as [|x xs IH]; intros Hbody.
  - exact produces_skip.
  - apply (produces_seq (body x) (for_each body xs)).
    + apply Hbody. now left.
    + apply IH. intros y Hy. apply Hbody. now right.
Qed.

End Producers.

(** ** [process_law] on any law value *)

Module ProcessLaw.
Import Main.

(** Take the next pure step of a chunk constructor apart. *)
Ltac step H :=
  match type of H with
  | bind ?e _ = Ok _ =>
      let E := fresh "E" in
      destruct e eqn:E; cbn [bind] in H; [|discriminate H]
  end.

Lemma section_chunk_carries info chapter section section_path chunk :
  section_chunk info chapter section section_path = Ok chunk ->
  carries info chunk.
Proof.
  unfold section_chunk. intros H. repeat step H.
  injection H as <-. reflexivity.
Qed.

Lemma comment_chunk_carries info section comment section_path chunk :
  comment_chunk info section comment section_path = Ok chunk ->
  carries info chunk.
Proof.
  unfold comment_chunk. intros H. repeat step H.
  injection H as <-. reflexivity.
Qed.

Lemma para_chunk_carries info section paragraph section_path i chunk :
  para_chunk info section paragraph section_path i = Ok chunk ->
  carries info chunk.
Proof.
  unfold para_chunk. intros H. repeat step H.
  injection H as <-. reflexivity.
Qed.

Lemma point_chunk_carries info section point section_path i j chunk :
  point_chunk info section point section_path i j = Ok chunk ->
  carries info chunk.
Proof.
  unfold point_chunk. intros H. repeat step H.
  injection H as <-. reflexivity.
Qed.

Lemma process_paragraph_produces info section section_path ip :
  produces (carries info)
    (process_paragraph info section section_path ip).
Proof.
  destruct ip as [i paragraph]. unfold process_paragraph.
  apply produces_pure. intros chunk Hchunk.
  apply (produces_emit (carries info) chunk
           (fun chunks =>
              points <- get paragraph "points" (JList []) ;;
              points <- iter points ;;
              for_each _ (enumerate 1 points) chunks)).
  - eapply para_chunk_carries; eassumption.
  - apply produces_pure. intros points _.
    apply produces_pure. intros points' _.
    apply produces_for_each. intros [j point] _.
    apply produces_pure. intros chunk' Hchunk'.
    apply (produces_emit (carries info) chunk' (fun chunks => Ok chunks)).
    + eapply point_chunk_carries; eassumption.
    + apply produces_skip.
Qed.

Lemma process_section_produces info chapter chapter_path section :
  produces (carries info)
    (process_section info chapter chapter_path section).
Proof.
  unfold process_section.
  apply produces_pure. intros number _.
  apply produces_pure. intros chunk Hchunk.
  apply (produces_emit (carries info) chunk
           (fun chunks =>
              comments <- get section "comments" (JList []) ;;
              comments <- iter comments ;;
              chunks <- for_each _ comments chunks ;;
              paragraphs <- get section "paragraphs" (JList []) ;;
              paragraphs <- iter paragraphs ;;
              for_each _ (enumerate 1 paragraphs) chunks)).
  - eapply section_chunk_carries; eassumption.
  - apply produces_pure. intros comments _.
    apply produces_pure. intros comments' _.
    apply (produces_seq (carries info) (for_each _ comments')
             (fun chunks =>
                paragraphs <- get section "paragraphs" (JList []) ;;
                paragraphs <- iter paragraphs ;;
                for_each _ (enumerate 1 paragraphs) chunks)).
    + apply produces_for_each. intros comment _.
      apply produces_pure. intros chunk' Hchunk'.
      apply (produces_emit (carries info) chunk' (fun chunks => Ok chunks)).
      * eapply comment_chunk_carries; eassumption.
      * apply produces_skip.
    + apply produces_pure. intros paragraphs _.
      apply produces_pure. intros paragraphs' _.
      apply produces_for_each. intros ip _.
      apply process_paragraph_produces.
Qed.

Lemma process_chapter_produces info path chapter :
  produces (carries info) (process_chapter info path chapter).
Proof.
  unfold process_chapter.
  apply produces_pure. intros number _.
  apply produces_pure. intros sections _.
  apply produces_pure. intros sections' _.
  apply produces_for_each. intros section _.
  apply process_section_produces.
Qed.

(** Every chunk [process_law] appends carries the dictionary
    [law_metadata] computed from the law at the start. *)
Lemma process_law_produces law path info :
  law_metadata law = Ok info ->
  produces (carries info) (process_law law path).
Proof.
  intros Hinfo. unfold process_law. rewrite Hinfo. cbn [bind].
  apply produces_pure. intros chapters _.
  apply produces_pure. intros chapters' _.
  apply produces_for_each. intros chapter _.
  apply process_chapter_produces.
Qed.

(** [process_law] leaves the chunks of earlier laws in place. *)
Lemma process_law_appends law path chunks :
  process_law law path chunks
  = (out <- process_law law path [] ;; Ok (chunks ++ out)%list).
Proof.
  destruct (law_metadata law) as [info|err] eqn:Hinfo.
  - apply (process_law_produces law path info Hinfo).
  - unfold process_law. now rewrite Hinfo.
Qed.

End ProcessLaw.

(** ** Nested loops as a concatenation *)

Lemma comprehension_app {A B} (f : A -> outcome B) (xs ys : list A) :
  comprehension f (xs ++ ys)%list
  = (us <- comprehension f xs ;;
     vs <- comprehension f ys ;;
     Ok (us ++ vs)%list).
Proof.
  induction xs as [|x xs IH]; simpl.
  - now destruct (comprehension f ys).
  - destruct (f x) as [y|e]; simpl; [|reflexivity].
    rewrite IH.
    destruct (comprehension f xs) as [us|e]; simpl; [|reflexivity].
    now destruct (comprehension f ys).
Qed.

Lemma comprehension_ext {A B C} (g : A -> B) (f : B -> outcome C)
    (h : A -> outcome C) (xs : list A) :
  (forall x, f (g x) = h x) ->
  comprehension f (map g xs) = comprehension h xs.
Proof.
  intros Hfh. induction xs as [|x xs IH]; simpl; [reflexivity|].
  now rewrite Hfh, IH.
Qed.

(** A loop over [map g xs] whose body appends what [r x] returns appends
    the concatenation of the results, and raises when some [r x] does. *)
Lemma for_each_concat {A B C} (g : A -> B)
    (body : B -> list C -> outcome (list C)) (r : A -> outcome (list C))
    (xs : list A) :
  (forall x s, body (g x) s = (out <- r x ;; Ok (s ++ out)%list)) ->
  forall s,
    for_each body (map g xs) s
    = (parts <- comprehension r xs ;; Ok (s ++ List.concat parts)%list).
Proof.
  intros Hbody. induction xs as [|x xs IH]; intros s; simpl.
  - now rewrite app_nil_r.
  - rewrite Hbody. destruct (r x) as [out|e]; simpl; [|reflexivity].
    rewrite IH.
    destruct (comprehension r xs) as [parts|e]; simpl; [|reflexivity].
    now rewrite app_assoc.
Qed.

Module SplitProofs.
Import Main Spider.

Lemma triples_chunks (lagar : corpus) :
  (parts <- comprehension category_chunks lagar ;; Ok (List.concat parts))
  = (parts <- comprehension
                (fun t => law_chunks (fst (fst t)) (snd (fst t)) (snd t))
                (triples lagar) ;;
     Ok (List.concat parts)).
Proof.
  induction lagar as [|[category laws] lagar IH].
  - reflexivity.
  - unfold triples. cbn [flat_map comprehension fst snd].
    fold (triples lagar).
    rewrite comprehension_app.
    rewrite (comprehension_ext _ _
               (fun law => law_chunks category (fst law) (snd law)))
      by reflexivity.
    unfold category_chunks at 1. cbn [fst snd].
    destruct (comprehension _ laws) as [us|e]; cbn [bind]; [|reflexivity].
    revert IH.
    destruct (comprehension category_chunks lagar) as [pp|e];
      destruct (comprehension _ (triples lagar)) as [vs|e'];
      cbn [bind]; try discriminate; try (intros H; exact H).
    intros [= IH]. cbn [List.concat]. now rewrite concat_app, IH.
Qed.

End SplitProofs.

(** ** Dictionaries *)

Section Dict.

Context {V : Type}.

Lemma lookup_store_same (k : string) (v : V) (d : dict V) :
  lookup k (store k v d) = Some v.
Proof.
  induction d as [|[k' v'] d IH]; simpl.
  - now rewrite String.eqb_refl.
  - destruct (String.eqb k k') eqn:E; simpl; rewrite E; [reflexivity | exact IH].
Qed.

Lemma lookup_store_other (k k' : string) (v : V) (d : dict V) :
  k <> k' -> lookup k' (store k v d) = lookup k' d.
Proof.
  intros Hne. induction d as [|[k0 v0] d IH]; simpl.
  - destruct (String.eqb k' k) eqn:E; [|reflexivity].
    apply String.eqb_eq in E. congruence.
  - destruct (String.eqb k k0) eqn:E; simpl.
    + apply String.eqb_eq in E. subst k0.
      destruct (String.eqb k' k) eqn:E'; [|reflexivity].
      apply String.eqb_eq in E'. congruence.
    + now rewrite IH.
Qed.

End Dict.

(** ** The corpus *)

Module CorpusProofs.
Import Spider.


Lemma find_law_insert_same (category law_name : string) (law : json)
    (lagar lagar' : corpus) :
  insert category law_name law lagar = Ok lagar' ->
  find_law lagar' category law_name = Some law.
Proof.
  unfold insert, find_law.
  destruct (lookup category lagar) as [laws|]; [|discriminate].
  intros [= <-]. now rewrite !lookup_store_same.
Qed.

Lemma find_law_insert_other (category law_name c n : string) (law : json)
    (lagar lagar' : corpus) :
  insert category law_name law lagar = Ok lagar' ->
  (c, n) <> (category, law_name) ->
  find_law lagar' c n = find_law lagar c n.
Proof.
  unfold insert, find_law.
  destruct (lookup category lagar) as [laws|] eqn:Hlaws; [|discriminate].
  intros [= <-] Hne.
  destruct (String.eqb c category) eqn:E.
  - apply String.eqb_eq in E. subst c.
    rewrite lookup_store_same, Hlaws.
    apply lookup_store_other. congruence.
  - apply String.eqb_neq in E.
    rewrite lookup_store_other; [reflexivity | congruence].
Qed.

(** Inserting keeps every category in the corpus. *)
Lemma lookup_insert_registered (category law_name c : string) (law : json)
    (lagar lagar' : corpus) :
  insert category law_name law lagar = Ok lagar' ->
  lookup c lagar <> None -> lookup c lagar' <> None.
Proof.
  unfold insert.
  destruct (lookup category lagar) as [laws|] eqn:Hlaws; [|discriminate].
  intros [= <-] Hc.
  destruct (String.eqb c category) eqn:E.
  - apply String.eqb_eq in E. subst c.
    rewrite lookup_store_same. discriminate.
  - apply String.eqb_neq in E.
    rewrite lookup_store_other; [exact Hc | congruence].
Qed.

End CorpusProofs.

(** ** Substrings *)



Module ClassifierProofs.
Import Url Spider.


Section Requests.

Variable urlparse : string -> outcome SplitResult.
Variable urljoin : string -> string -> outcome string.
Variable new_request : string -> outcome string.
Variables (base_domain url : string).
Variable parsed : string -> SplitResult.
Variables (joined requested : string -> string).

#[local] Abbreviation served :=
  (served urlparse urljoin new_request base_domain url parsed joined
     requested).
#[local] Abbreviation refused :=
  (refused urlparse urljoin new_request base_domain url parsed joined).

Lemma parse_links_served (all_links : list string) :
  (forall href, In href all_links -> served href) ->
  parse_links urlparse urljoin new_request base_domain url all_links
  = (map (fun href => requested (joined href))
       (filter (fun href => follow_link base_domain (parsed href) href)
          all_links),
     None).
Proof.
  induction all_links as [|href rest IH]; intros Hok; cbn [parse_links].
  - reflexivity.
  - destruct (Hok href (or_introl eq_refl)) as [Hparsed Hrequest].
    rewrite Hparsed, IH by (intros h Hh; apply Hok; now right).
    cbn [filter].
    destruct (follow_link base_domain (parsed href) href); [|reflexivity].
    destruct (Hrequest eq_refl) as [-> Hnew]. cbn [bind].
    now rewrite Hnew.
Qed.

Lemma parse_links_refused (before after : list string) (href : string)
    (e : exn) :
  (forall h, In h before -> served h) ->
  refused href e ->
  parse_links urlparse urljoin new_request base_domain url
    (before ++ href :: after)%list
  = (map (fun h => requested (joined h))
       (filter (fun h => follow_link base_domain (parsed h) h) before),
     Some e).
Proof.
  intros Hok Hraise.
  induction before as [|h before IH]; cbn [List.app parse_links filter map].
  - destruct Hraise as [-> | [-> [-> [-> | [-> Hnew]]]]];
      cbn [bind]; try reflexivity.
    now rewrite Hnew.
  - destruct (Hok h (or_introl eq_refl)) as [Hparsed Hrequest].
    rewrite Hparsed, IH by (intros h' Hh'; apply Hok; now right).
    destruct (follow_link base_domain (parsed h) h); [|reflexivity].
    destruct (Hrequest eq_refl) as [-> Hnew]. cbn [bind].
    now rewrite Hnew.
Qed.

End Requests.

End ClassifierProofs.

(** ** Strings: cancellation and first occurrences *)

Lemma string_app_nil_r (a : string) : a ++ "" = a.
Proof.
  induction a as [|x a IH]; simpl; [reflexivity | now rewrite IH].
Qed.


Lemma has_char_app (c : ascii) (a b : string) :
  has_char c (a ++ b) = has_char c a || has_char c b.
Proof.
  induction a as [|x a IH]; simpl; [reflexivity|].
  now rewrite IH, orb_assoc.
Qed.


(** ** Decimal numerals *)

Lemma str_of_int_inj (a b : Z) : str_of_int a = str_of_int b -> a = b.
Proof.
  unfold str_of_int. intros H.
  apply DecimalZ.to_int_inj.
  assert (forall z, NilZero.int_of_string (NilZero.string_of_int (Z.to_int z))
                    = Some (Z.to_int z)) as Hisi.
  { intros z. apply NilZero.isi.
    - destruct z as [|p|p]; simpl; try discriminate.
      intros [= Hp]. now apply (DecimalPos.Unsigned.to_uint_nonnil p).
    - destruct z as [|p|p]; simpl; try discriminate.
      intros [= Hp]. now apply (DecimalPos.Unsigned.to_uint_nonnil p). }
  pose proof (Hisi a) as Ha. rewrite H, Hisi in Ha. now injection Ha.
Qed.



(** ** [enumerate] numbers from [start], without repeating *)

Lemma enumerate_lower {A} (xs : list A) (start i : Z) (x : A) :
  In (i, x) (enumerate start xs) -> (start <= i)%Z.
Proof.
  revert start; induction xs as [|y xs IH]; intros start; simpl.
  - intros [].
  - intros [[= <- _] | H]; [lia | apply IH in H; lia].
Qed.

Lemma enumerate_nth {A} (xs : list A) (start : Z) (k : nat) :
  nth_error (enumerate start xs) k
  = option_map (fun x => ((start + Z.of_nat k)%Z, x)) (nth_error xs k).
Proof.
  revert start k; induction xs as [|x xs IH]; intros start [|k]; simpl;
    try reflexivity.
  - now rewrite Z.add_0_r.
  - rewrite IH. destruct (nth_error xs k); simpl; [|reflexivity].
    do 2 f_equal. lia.
Qed.

Lemma enumerate_indices_NoDup {A} (xs : list A) (start : Z) :
  NoDup (map fst (enumerate start xs)).
Proof.
  revert start; induction xs as [|x xs IH]; intros start; simpl.
  - constructor.
  - constructor; [|apply IH].
    intros Hin. apply in_map_iff in Hin as [[i y] [Hi Hin]].
    simpl in Hi. subst i. apply enumerate_lower in Hin. lia.
Qed.

(** ** Paths of the chunks of a law *)

Module PathProofs.
Import Spider Flatten.

(** *** The tail of a path tells the place *)






(** *** The places of one section *)






(** *** From the sections to the law *)





End PathProofs.

(** ** Counting the chunks *)

Module CountProofs.
Import Spider Flatten.

Lemma flat_map_length {A B} (f : A -> list B) (xs : list A) :
  List.length (flat_map f xs)
  = list_sum (map (fun x => List.length (f x)) xs).
Proof.
  induction xs as [|x xs IH]; simpl; [reflexivity|].
  now rewrite length_app, IH.
Qed.

Lemma paragraphs_length (info : json) (crumb : string)
    (section : SectionNode) (ps : list ParagraphNode) (start : Z) :
  List.length (flat_map (flatten_paragraph info crumb section)
                 (enumerate start ps))
  = List.length ps
    + list_sum (map (fun p => List.length (paragraph_li p)) ps).
Proof.
  revert start; induction ps as [|p ps IH]; intros start;
    cbn [enumerate flat_map map list_sum List.length].
  - reflexivity.
  - rewrite length_app, IH. unfold flatten_paragraph.
    cbn [List.length fst snd]. rewrite length_map, enumerate_length.
    unfold list_sum. cbn [fold_right]. lia.
Qed.

Lemma section_length (info : json) (category law_name : string)
    (chapter : ChapterNode) (section : SectionNode) :
  List.length (flatten_section info category law_name chapter section)
  = section_count section.
Proof.
  unfold flatten_section, section_count. cbn [List.length].
  rewrite length_app, length_map, paragraphs_length. lia.
Qed.

Lemma law_length (category law_name : string) (law : Response) :
  List.length (flatten category law_name law) = law_count law.
Proof.
  unfold flatten, law_count, flatten_chapter.
  rewrite flat_map_length. f_equal. apply map_ext. intros chapter.
  rewrite flat_map_length. f_equal. apply map_ext. intros section.
  apply section_length.
Qed.

End CountProofs.

(** ** Properties of the specification *)

Import Main Url Spider Flatten.




(** C2.  For every law, flattening returns as many chunks as the sum,
    over all sections of all chapters, of 1 + the comments of the
    section + its paragraphs + the points of those paragraphs; a law
    without chapters flattens to the empty sequence. *)
Theorem flatten_count (category law_name : string) (law : Response) :
  exists out,
    law_chunks category law_name (law_dict law) = Ok out
    /\ List.length out = law_count law
    /\ (section_chapter law = [] -> out = []).
Proof.
  exists (flatten category law_name law). split; [|split].
  - unfold law_chunks. now rewrite FlattenProofs.process_law_built.
  - apply CountProofs.law_length.
  - unfold flatten. now intros ->.
Qed.

(** The sample page without chapters flattens to the empty list. *)
Lemma flatten_count_witness :
  law_chunks "sfs" "1998:204" (law_dict Examples.law_without_chapters)
  = Ok [].
Proof.
  destruct (flatten_count "sfs" "1998:204" Examples.law_without_chapters)
    as [out [Hout [_ Hnil]]].
  rewrite Hout. f_equal. apply Hnil. reflexivity.
Defined.




(** C4 fails on the code: [process_law] raises [KeyError] on a law whose
    chapter has no key [number], and [AttributeError] on a law whose
    [metadata] is [null]. *)
Theorem process_law_raises :
  law_chunks "sfs" "1998:204" Examples.law_without_chapter_number
  = Raise KeyError
  /\ law_chunks "sfs" "1998:204" Examples.law_with_null_metadata
     = Raise AttributeError.
Proof. split; reflexivity. Qed.




(** C6.  In a corpus that holds no law, with the categories registered
    as [parse_category] registers them, inserting A and then B under one
    (category, law name) key leaves B under the key and nothing of A;
    inserting A and B under two distinct keys leaves each under its own
    key. *)
Theorem insert_last_write_wins :
  (forall category law_name A B,
     exists lagar1 lagar2,
       insert category law_name A (register_category category init)
       = Ok lagar1
       /\ insert category law_name B lagar1 = Ok lagar2
       /\ find_law lagar2 category law_name = Some B
       /\ lagar2 = [(category, [(law_name, B)])])
  /\ (forall c1 n1 c2 n2 A B,
        (c1, n1) <> (c2, n2) ->
        exists lagar1 lagar2,
          insert c1 n1 A
            (register_category c2 (register_category c1 init))
          = Ok lagar1
          /\ insert c2 n2 B lagar1 = Ok lagar2
          /\ find_law lagar2 c1 n1 = Some A
          /\ find_law lagar2 c2 n2 = Some B).
Proof.
  split.
  - intros category law_name A B.
    exists [(category, [(law_name, A)])], [(category, [(law_name, B)])].
    unfold insert, find_law, register_category, init.
    cbn [store lookup].
    repeat (rewrite !String.eqb_refl; cbn [store lookup]).
    repeat split.
  - intros c1 n1 c2 n2 A B Hne.
    destruct (insert c1 n1 A
                (register_category c2 (register_category c1 init)))
      as [lagar1|e] eqn:H1.
    2:{ exfalso. revert H1. unfold insert, register_category.
        destruct (String.eqb c1 c2) eqn:E.
        - apply String.eqb_eq in E. subst c2.
          now rewrite lookup_store_same.
        - apply String.eqb_neq in E.
          rewrite lookup_store_other by congruence.
          now rewrite lookup_store_same. }
    destruct (insert c2 n2 B lagar1) as [lagar2|e] eqn:H2.
    2:{ exfalso. revert H2. unfold insert.
        destruct (lookup c2 lagar1) eqn:E; [discriminate|]. intros _.
        eapply (CorpusProofs.lookup_insert_registered c1 n1 c2);
          [exact H1 | | exact E].
        unfold register_category. now rewrite lookup_store_same. }
    exists lagar1, lagar2.
    split; [reflexivity|]. split; [exact H2|]. split.
    + rewrite (CorpusProofs.find_law_insert_other _ _ _ _ _ _ _ H2 Hne).
      eapply CorpusProofs.find_law_insert_same; eassumption.
    + eapply CorpusProofs.find_law_insert_same; eassumption.
Qed.

(** Two laws of the same name under two categories. *)
Lemma insert_last_write_wins_witness :
  exists lagar1 lagar2,
    insert "sfs" "1998:204" (law_dict Examples.law_1998)
      (register_category "dv" (register_category "sfs" init))
    = Ok lagar1
    /\ insert "dv" "1998:204" (law_dict Examples.law_without_text) lagar1
       = Ok lagar2
    /\ find_law lagar2 "sfs" "1998:204" = Some (law_dict Examples.law_1998)
    /\ find_law lagar2 "dv" "1998:204"
       = Some (law_dict Examples.law_without_text).
Proof.
  apply (proj2 insert_last_write_wins). discriminate.
Defined.

(** C7 fails on the code: for a section whose page has no text, the
    builder stores [None] under [text] and the section chunk has [None],
    not a string, as its content. *)
Theorem content_of_section_without_text :
  exists out,
    law_chunks "sfs" "1998:204" (law_dict Examples.law_without_text)
    = Ok out
    /\ map chunk_content out = [Ok JNull].
Proof. eexists. split; reflexivity. Qed.

(** C8.  For every law, [process_law] appends the chunks of the chapters
    in order, of the sections of a chapter in order, and for a section
    its own chunk, then one chunk per comment in order, then for each
    paragraph in order its chunk followed by one chunk per point in
    order; the k-th element [enumerate 1] visits has index k, counted
    from 1. *)
Theorem emission_order (category law_name : string) (law : Response)
    (chunks : list json) :
  process_law (law_dict law) [category; law_name] chunks
  = Ok (chunks
          ++ flat_map
               (fun chapter =>
                  flat_map
                    (fun section =>
                       let info := law_info law in
                       let crumb :=
                         breadcrumb category law_name chapter section in
                       section_chunk info crumb chapter section
                         :: map (comment_chunk info crumb section)
                              (section_comment section)
                         ++ flat_map
                              (fun ip =>
                                 paragraph_chunk info crumb section
                                   (fst ip) (snd ip)
                                   :: map (fun jp =>
                                             point_chunk info crumb section
                                               (fst ip) (fst jp) (snd jp))
                                        (enumerate 1
                                           (paragraph_li (snd ip))))
                              (enumerate 1 (section_paragraph section)))
                    (chapter_section chapter))
               (section_chapter law))%list
  /\ (forall (A : Type) (xs : list A) (k : nat),
        nth_error (enumerate 1 xs) k
        = option_map (fun x => ((1 + Z.of_nat k)%Z, x)) (nth_error xs k)).
Proof.
  split.
  - apply FlattenProofs.process_law_built.
  - intros A xs k. apply enumerate_nth.
Qed.

(** C9.  Flattening a corpus returns the concatenation of the chunks of
    its (category, law name, law) triples, triple after triple, and
    raises when flattening one of them does. *)
Theorem split_documents_concat (lagar : corpus) :
  split_documents (data lagar)
  = (parts <- comprehension
                (fun t => law_chunks (fst (fst t)) (snd (fst t)) (snd t))
                (triples lagar) ;;
     Ok (List.concat parts)).
Proof.
  rewrite <- SplitProofs.triples_chunks.
  unfold split_documents, data.
  cbn [get lookup String.eqb Ascii.eqb Bool.eqb bind items].
  rewrite (for_each_concat _ _ category_chunks).
  - reflexivity.
  - intros [category laws] s. cbn [fst snd items bind].
    rewrite <- (map_id laws) at 1.
    rewrite (for_each_concat _ _
               (fun law => law_chunks category (fst law) (snd law))).
    + unfold category_chunks. cbn [fst snd].
      now destruct (comprehension _ laws).
    + intros [law_name law] s'. cbn [fst snd]. unfold law_chunks.
      apply ProcessLaw.process_law_appends.
Qed.

(** C10.  Every chunk [process_law] appends for a law carries, under
    [law_info], the one dictionary [law_metadata] computed from the law
    before the first chunk; for a law built from a page it holds the id,
    title, short title, department, issued date and last amendment of
    the page. *)
Theorem law_info_shared :
  (forall law path chunks out,
     process_law law path chunks = Ok out ->
     exists info new,
       law_metadata law = Ok info
       /\ out = (chunks ++ new)%list
       /\ Forall (carries info) new)
  /\ (forall category law_name law,
        exists out,
          law_chunks category law_name (law_dict law) = Ok out
          /\ Forall (carries (law_info law)) out).
Proof.
  assert (forall law path chunks out,
            process_law law path chunks = Ok out ->
            exists info new,
              law_metadata law = Ok info
              /\ out = (chunks ++ new)%list
              /\ Forall (carries info) new) as Hany.
  { intros law path chunks out Hout.
    destruct (law_metadata law) as [info|e] eqn:Hinfo.
    - destruct (ProcessLaw.process_law_produces law path info Hinfo)
        as [Happ Hall].
      rewrite Happ in Hout.
      destruct (process_law law path []) as [new|e]; [|discriminate].
      injection Hout as <-. exists info, new. repeat split.
      now apply Hall.
    - unfold process_law in Hout. now rewrite Hinfo in Hout. }
  split; [exact Hany|].
  intros category law_name law.
  exists (flatten category law_name law).
  assert (law_chunks category law_name (law_dict law)
          = Ok (flatten category law_name law)) as Hout
    by (unfold law_chunks; now rewrite FlattenProofs.process_law_built).
  split; [exact Hout|].
  destruct (Hany _ _ _ _ Hout) as [info [new [Hinfo [-> Hall]]]].
  injection Hinfo as <-. exact Hall.
Qed.

(** The chunks of the sample law. *)
Lemma law_info_shared_witness :
  exists info new,
    law_metadata (law_dict Examples.law_1998) = Ok info
    /\ flatten "sfs" "1998:204" Examples.law_1998 = ([] ++ new)%list
    /\ Forall (carries info) new.
Proof.
  apply (proj1 law_info_shared (law_dict Examples.law_1998)
           ["sfs"; "1998:204"] []).
  reflexivity.
Defined.

(** ** Strings: suffixes and the last segment *)

Lemma substring_skip (pre t : string) (m : nat) :
  String.substring (String.length pre) m (pre ++ t) = String.substring 0 m t.
Proof.
  induction pre as [|c pre IH]; simpl; [reflexivity | exact IH].
Qed.

Lemma substring_all (t : string) :
  String.substring 0 (String.length t) t = t.
Proof.
  induction t as [|c t IH]; simpl; [reflexivity | now rewrite IH].
Qed.

Lemma string_length_app (a b : string) :
  String.length (a ++ b) = String.length a + String.length b.
Proof.
  induction a as [|c a IH]; simpl; [reflexivity | now rewrite IH].
Qed.

(** A string is its first [k] characters followed by the rest. *)
Lemma substring_split (s : string) (k : nat) :
  k <= String.length s ->
  s = String.substring 0 k s
        ++ String.substring k (String.length s - k) s.
Proof.
  revert k; induction s as [|c s IH]; intros [|k] Hk; simpl in *.
  - reflexivity.
  - lia.
  - now rewrite substring_all.
  - f_equal. apply IH. lia.
Qed.

Lemma endswith_suffix (s suffix : string) :
  endswith s suffix = true <-> exists before, s = before ++ suffix.
Proof.
  unfold endswith. rewrite andb_true_iff, Nat.leb_le, String.eqb_eq.
  split.
  - intros [Hle Hsub].
    exists (String.substring 0 (String.length s - String.length suffix) s).
    pose proof (substring_split s
                  (String.length s - String.length suffix)) as H.
    replace (String.length s - (String.length s - String.length suffix))
      with (String.length suffix) in H by lia.
    rewrite Hsub in H. apply H. lia.
  - intros [before ->]. rewrite string_length_app. split; [lia|].
    replace (String.length before + String.length suffix
             - String.length suffix) with (String.length before) by lia.
    now rewrite substring_skip, substring_all.
Qed.

Lemma split_from_nonempty (sep : ascii) (acc s : string) :
  split_from sep acc s <> [].
Proof.
  revert acc; induction s as [|c s IH]; intros acc; simpl.
  - discriminate.
  - destruct (Ascii.eqb c sep); [discriminate | apply IH].
Qed.

Lemma last_cons {A} (x : A) (l : list A) (d : A) :
  l <> [] -> List.last (x :: l) d = List.last l d.
Proof. destruct l; [congruence | reflexivity]. Qed.

(** The last segment has no separator, and the text read so far followed
    by the rest is the last segment, alone or after a separator. *)
Lemma last_split_from (sep : ascii) (acc s : string) :
  has_char sep acc = false ->
  let segment := List.last (split_from sep acc s) "" in
  has_char sep segment = false
  /\ (acc ++ s = segment
      \/ exists before, acc ++ s = before ++ String sep segment).
Proof.
  revert acc; induction s as [|c s IH]; intros acc Hacc; simpl.
  - rewrite string_app_nil_r. split; [exact Hacc | now left].
  - destruct (Ascii.eqb c sep) eqn:E.
    + apply Ascii.eqb_eq in E. subst c.
      rewrite last_cons by apply split_from_nonempty.
      destruct (IH "" eq_refl) as [Hseg Hcase].
      remember (List.last (split_from sep "" s) "") as segment.
      split; [exact Hseg|].
      right. simpl in Hcase. destruct Hcase as [H | [before H]]; rewrite H.
      * now exists acc.
      * exists (acc ++ String sep before).
        now rewrite string_app_assoc.
    + assert (has_char sep (acc ++ String c "") = false) as Hacc'.
      { rewrite has_char_app, Hacc. simpl.
        rewrite Ascii.eqb_sym, E. reflexivity. }
      destruct (IH _ Hacc') as [Hseg Hcase].
      remember (List.last (split_from sep (acc ++ String c "") s) "")
        as segment.
      split; [exact Hseg|].
      rewrite string_app_assoc in Hcase. exact Hcase.
Qed.

Lemma last_split_from_sep (sep : ascii) (acc s : string) :
  List.last (split_from sep acc (s ++ String sep "")) "" = "".
Proof.
  revert acc; induction s as [|c s IH]; intros acc; simpl.
  - now rewrite Ascii.eqb_refl.
  - destruct (Ascii.eqb c sep).
    + rewrite last_cons by apply split_from_nonempty. apply IH.
    + apply IH.
Qed.

(** ** Dictionaries: keys *)

Section DictKeys.

Context {V : Type}.

Lemma lookup_In (k : string) (v : V) (d : dict V) :
  lookup k d = Some v -> In (k, v) d.
Proof.
  induction d as [|[k' v'] d IH]; simpl; [discriminate|].
  destruct (String.eqb k k') eqn:E.
  - apply String.eqb_eq in E. intros [= ->]. subst. now left.
  - intros H. right. now apply IH.
Qed.

Lemma lookup_None (k : string) (d : dict V) :
  lookup k d = None <-> ~ In k (Crawl.keys d).
Proof.
  induction d as [|[k' v'] d IH]; simpl.
  - split; [intros _ [] | reflexivity].
  - destruct (String.eqb k k') eqn:E.
    + apply String.eqb_eq in E. subst. split; [discriminate|].
      intros H. exfalso. apply H. now left.
    + apply String.eqb_neq in E. rewrite IH. split.
      * intros H [H'|H']; [congruence | now apply H].
      * intros H H'. apply H. now right.
Qed.

(** A stored key keeps its place; a new key goes last. *)
Lemma keys_store (k : string) (v : V) (d : dict V) :
  Crawl.keys (store k v d)
  = match lookup k d with
    | Some _ => Crawl.keys d
    | None => (Crawl.keys d ++ [k])%list
    end.
Proof.
  induction d as [|[k' v'] d IH]; simpl; [reflexivity|].
  destruct (String.eqb k k') eqn:E; simpl; [reflexivity|].
  rewrite IH. now destruct (lookup k d).
Qed.

Lemma NoDup_store (k : string) (v : V) (d : dict V) :
  NoDup (Crawl.keys d) -> NoDup (Crawl.keys (store k v d)).
Proof.
  intros Hnd. rewrite keys_store.
  destruct (lookup k d) eqn:E; [exact Hnd|].
  apply lookup_None in E.
  apply NoDup_app; [exact Hnd | repeat constructor; intros [] |].
  intros x Hx [<- | []]. now apply E.
Qed.

Lemma In_store (k k' : string) (v v' : V) (d : dict V) :
  In (k', v') (store k v d) -> (k' = k /\ v' = v) \/ In (k', v') d.
Proof.
  induction d as [|[k0 v0] d IH]; simpl.
  - intros [[= <- <-] | []]. now left.
  - destruct (String.eqb k k0) eqn:E.
    + apply String.eqb_eq in E. subst k0.
      intros [[= <- <-] | H]; [now left | right; now right].
    + intros [H | H]; [right; now left|].
      destruct (IH H) as [H' | H']; [now left | right; now right].
Qed.

End DictKeys.

(** ** What the callbacks keep true of the corpus *)

Module CrawlProofs.
Import Crawl.

(** No category and no law name twice, and every law built from a page
    whose URL ends in the name it is stored under. *)
Lemma mutation_keeps (P : corpus -> Prop) :
  P init ->
  (forall category lagar, P lagar -> P (store category [] lagar)) ->
  (forall category law_name response laws lagar,
     P lagar -> lookup category lagar = Some laws ->
     last_segment (url response) = law_name ->
     P (store category (store law_name (law_dict response) laws) lagar)) ->
  forall lagar, reachable lagar -> P lagar.
Proof.
  intros Hinit Hcat Hlaw lagar Hr.
  induction Hr as [|lagar lagar' _ IH Hstep]; [exact Hinit|].
  destruct Hstep
    as [urljoin new_request url hrefs lagar | response lagar lagar' Hlaw'].
  - cbn [parse_category fst]. unfold register_category. apply Hcat, IH.
  - unfold parse_law, insert in Hlaw'.
    destruct (lookup "category" (meta response)) as [category|];
      [|discriminate].
    destruct (lookup category lagar) as [laws|] eqn:E; [|discriminate].
    injection Hlaw' as <-. now apply (Hlaw category _ response laws).
Qed.

Lemma reachable_keys (lagar : corpus) :
  reachable lagar ->
  NoDup (keys lagar)
  /\ forall category laws,
       In (category, laws) lagar ->
       NoDup (keys laws)
       /\ forall law_name law, In (law_name, law) laws ->
                               built_as law_name law.
Proof.
  apply (mutation_keeps
           (fun lagar =>
              NoDup (keys lagar)
              /\ forall category laws,
                   In (category, laws) lagar ->
                   NoDup (keys laws)
                   /\ forall law_name law, In (law_name, law) laws ->
                                           built_as law_name law)).
  - split; [constructor | intros ? ? []].
  - intros category lagar0 [Hnd Hall]. split; [now apply NoDup_store|].
    intros c laws Hin. apply In_store in Hin as [[-> ->] | Hin].
    + split; [constructor | intros ? ? []].
    + now apply (Hall c).
  - intros category law_name response laws lagar0 [Hnd Hall] Hlaws Hname.
    split; [now apply NoDup_store|].
    intros c laws' Hin. apply In_store in Hin as [[-> ->] | Hin];
      [|now apply (Hall c)].
    apply lookup_In in Hlaws. destruct (Hall _ _ Hlaws) as [Hnd' Hbuilt].
    split; [now apply NoDup_store|].
    intros n law Hin. apply In_store in Hin as [[-> ->] | Hin].
    + now exists response.
    + now apply Hbuilt.
Qed.

(** [split_documents] on a dumped corpus, triple by triple. *)
Lemma split_documents_by_triple (lagar : corpus) :
  split_documents (data lagar)
  = (parts <- comprehension
                (fun t => law_chunks (fst (fst t)) (snd (fst t)) (snd t))
                (triples lagar) ;;
     Ok (List.concat parts)).
Proof.
  rewrite <- SplitProofs.triples_chunks.
  unfold split_documents, data.
  cbn [get lookup String.eqb Ascii.eqb Bool.eqb bind items].
  rewrite (for_each_concat _ _ category_chunks).
  - reflexivity.
  - intros [category laws] s. cbn [fst snd items bind].
    rewrite <- (map_id laws) at 1.
    rewrite (for_each_concat _ _
               (fun law => law_chunks category (fst law) (snd law))).
    + unfold category_chunks. cbn [fst snd].
      now destruct (comprehension _ laws).
    + intros [law_name law] s'. cbn [fst snd]. unfold law_chunks.
      apply ProcessLaw.process_law_appends.
Qed.

Lemma In_triples (lagar : corpus) (category law_name : string) (law : json) :
  In (category, law_name, law) (triples lagar)
  <-> exists laws, In (category, laws) lagar /\ In (law_name, law) laws.
Proof.
  unfold triples. rewrite in_flat_map. split.
  - intros [[c laws] [Hc Hin]]. cbn [fst snd] in Hin.
    apply in_map_iff in Hin as [[n l] [[= <- <- <-] Hin]].
    now exists laws.
  - intros [laws [Hc Hin]]. exists (category, laws). split; [exact Hc|].
    cbn [fst snd]. apply in_map_iff. now exists (law_name, law).
Qed.

(** Flattening the laws of a list of triples, each built from a page. *)
Lemma comprehension_built (ts : list (string * string * json)) :
  (forall t, In t ts -> exists response, snd t = law_dict response) ->
  exists parts,
    comprehension (fun t => law_chunks (fst (fst t)) (snd (fst t)) (snd t))
      ts = Ok parts
    /\ Forall2 (fun t part =>
                  exists response,
                    snd t = law_dict response
                    /\ part = flatten (fst (fst t)) (snd (fst t)) response)
         ts parts.
Proof.
  induction ts as [|[[c n] law] ts IH]; intros Hbuilt.
  - exists []. split; [reflexivity | constructor].
  - destruct (Hbuilt _ (or_introl eq_refl)) as [response Hlaw].
    cbn [fst snd] in Hlaw. subst law.
    destruct IH as [parts [Hparts Hall]];
      [intros t Ht; apply Hbuilt; now right|].
    exists (flatten c n response :: parts). split.
    + cbn [comprehension fst snd]. unfold law_chunks at 1.
      rewrite FlattenProofs.process_law_built. cbn [bind app].
      now rewrite Hparts.
    + constructor; [|exact Hall]. now exists response.
Qed.

(** A category a pending request names is in the corpus. *)
Lemma pending_registered (s : Queue.state) :
  Queue.reachable s ->
  forall href category,
    In (href, category) (Queue.pending s) ->
    lookup category (Queue.lagar s) <> None.
Proof.
  intros Hr. induction Hr as [|s s' _ IH Hstep].
  - intros ? ? [].
  - destruct Hstep
      as [urljoin new_request url hrefs s
         | response href0 c0 s lagar' _ _ Hlaw];
      cbn [Queue.lagar Queue.pending parse_category fst snd];
      intros href category Hin.
    + unfold register_category.
      destruct (String.eqb (last_segment url) category) eqn:E.
      * apply String.eqb_eq in E. subst. rewrite lookup_store_same.
        discriminate.
      * apply String.eqb_neq in E. rewrite lookup_store_other by exact E.
        apply in_app_or in Hin as [Hin | Hin]; [now apply (IH href)|].
        unfold law_links in Hin.
        apply in_map_iff in Hin as [h [[= _ Hc] _]]. congruence.
    + unfold parse_law in Hlaw.
      destruct (lookup "category" (meta response)) as [c|]; [|discriminate].
      eapply CorpusProofs.lookup_insert_registered; [exact Hlaw|].
      now apply (IH href).
Qed.

End CrawlProofs.

(** ** The chunks of any law value *)

Lemma produces_impl {C} (P Q : C -> Prop)
    (m : list C -> outcome (list C)) :
  (forall c, P c -> Q c) -> produces P m -> produces Q m.
Proof.
  intros HPQ [Happ Hall]. split; [exact Happ|].
  intros out Hout. eapply Forall_impl; [exact HPQ | now apply Hall].
Qed.

Lemma join_snoc_nonempty (sep : string) (parts : list string)
    (last : string) :
  parts <> [] -> join sep (parts ++ [last])%list = join sep parts ++ sep ++ last.
Proof. destruct parts as [|p parts]; [congruence | intros _; apply join_snoc]. Qed.

Lemma join_snoc2_nonempty (sep : string) (parts : list string)
    (a b : string) :
  parts <> [] ->
  join sep (parts ++ [a; b])%list = join sep parts ++ sep ++ a ++ sep ++ b.
Proof. destruct parts as [|p parts]; [congruence | intros _; apply join_snoc2]. Qed.

Module ShapeProofs.
Import Shape.

Ltac step H :=
  match type of H with
  | bind ?e _ = Ok _ =>
      let E := fresh "E" in
      destruct e eqn:E; cbn [bind] in H; [|discriminate H]
  end.

Lemma section_chunk_located info chapter section section_path chunk :
  Main.section_chunk info chapter section section_path = Ok chunk ->
  located section_path chunk.
Proof.
  unfold Main.section_chunk. intros H. repeat step H. injection H as <-.
  eexists _, _, AtSection. cbn [tail]. now rewrite string_app_nil_r.
Qed.

Lemma comment_chunk_located info section comment section_path chunk :
  section_path <> [] ->
  Main.comment_chunk info section comment section_path = Ok chunk ->
  located section_path chunk.
Proof.
  unfold Main.comment_chunk. intros Hne H. repeat step H. injection H as <-.
  eexists _, _, AtComment. cbn [tail].
  now rewrite join_snoc_nonempty.
Qed.

Lemma para_chunk_located info section paragraph section_path i chunk :
  section_path <> [] ->
  para_chunk info section paragraph section_path i = Ok chunk ->
  located section_path chunk.
Proof.
  unfold para_chunk. intros Hne H. repeat step H. injection H as <-.
  eexists _, _, (AtParagraph i). cbn [tail].
  now rewrite join_snoc_nonempty.
Qed.

Lemma point_chunk_located info section point section_path i j chunk :
  section_path <> [] ->
  Main.point_chunk info section point section_path i j = Ok chunk ->
  located section_path chunk.
Proof.
  unfold Main.point_chunk. intros Hne H. repeat step H. injection H as <-.
  eexists _, _, (AtPoint i j). cbn [tail].
  rewrite join_snoc2_nonempty by exact Hne.
  reflexivity.
Qed.

Lemma process_paragraph_located info section section_path ip :
  section_path <> [] ->
  produces (located section_path)
    (process_paragraph info section section_path ip).
Proof.
  intros Hne. destruct ip as [i paragraph]. unfold process_paragraph.
  apply produces_pure. intros chunk Hchunk.
  apply (produces_emit (located section_path) chunk
           (fun chunks =>
              points <- get paragraph "points" (JList []) ;;
              points <- iter points ;;
              for_each _ (enumerate 1 points) chunks)).
  - eapply para_chunk_located; eassumption.
  - apply produces_pure. intros points _.
    apply produces_pure. intros points' _.
    apply produces_for_each. intros [j point] _.
    apply produces_pure. intros chunk' Hchunk'.
    apply (produces_emit (located section_path) chunk'
             (fun chunks => Ok chunks)).
    + eapply point_chunk_located; eassumption.
    + apply produces_skip.
Qed.

Lemma process_section_located info chapter chapter_path section :
  produces
    (fun chunk =>
       exists number,
         located (List.app chapter_path ["Section " ++ str number]) chunk)
    (process_section info chapter chapter_path section).
Proof.
  unfold process_section.
  apply produces_pure. intros number _.
  apply (produces_impl
           (located (List.app chapter_path ["Section " ++ str number])));
    [intros c Hc; now exists number|].
  assert (List.app chapter_path ["Section " ++ str number] <> []) as Hne
    by (destruct chapter_path; discriminate).
  apply produces_pure. intros chunk Hchunk.
  apply (produces_emit _ chunk
           (fun chunks =>
              comments <- get section "comments" (JList []) ;;
              comments <- iter comments ;;
              chunks <- for_each _ comments chunks ;;
              paragraphs <- get section "paragraphs" (JList []) ;;
              paragraphs <- iter paragraphs ;;
              for_each _ (enumerate 1 paragraphs) chunks)).
  - eapply section_chunk_located; eassumption.
  - apply produces_pure. intros comments _.
    apply produces_pure. intros comments' _.
    apply (produces_seq _ (for_each _ comments')
             (fun chunks =>
                paragraphs <- get section "paragraphs" (JList []) ;;
                paragraphs <- iter paragraphs ;;
                for_each _ (enumerate 1 paragraphs) chunks)).
    + apply produces_for_each. intros comment _.
      apply produces_pure. intros chunk' Hchunk'.
      apply (produces_emit _ chunk' (fun chunks => Ok chunks)).
      * eapply comment_chunk_located; eassumption.
      * apply produces_skip.
    + apply produces_pure. intros paragraphs _.
      apply produces_pure. intros paragraphs' _.
      apply produces_for_each. intros ip _.
      now apply process_paragraph_located.
Qed.

End ShapeProofs.

Module LawShape.
Import Shape.

Lemma process_chapter_under info path chapter :
  produces (under path) (process_chapter info path chapter).
Proof.
  unfold process_chapter.
  apply produces_pure. intros number _.
  apply produces_pure. intros sections _.
  apply produces_pure. intros sections' _.
  apply produces_for_each. intros section _.
  eapply produces_impl; [|apply ShapeProofs.process_section_located].
  intros chunk [number' Hloc]. exists number, number'.
  now rewrite <- app_assoc in Hloc.
Qed.

Lemma process_law_under law path :
  produces (under path) (process_law law path).
Proof.
  unfold process_law.
  apply produces_pure. intros info _.
  apply produces_pure. intros chapters _.
  apply produces_pure. intros chapters' _.
  apply produces_for_each. intros chapter _.
  apply process_chapter_under.
Qed.

(** A chunk with a content and a dictionary of metadata. *)
Lemma under_fields (path : list string) (chunk : json) :
  under path chunk ->
  exists content metadata,
    getitem chunk "content" = Ok content
    /\ getitem chunk "metadata" = Ok (JDict metadata).
Proof.
  intros [chapter [section [content [rest [p ->]]]]].
  eexists _, _. split; reflexivity.
Qed.

(** The loops of [split_documents] over the laws of the corpus. *)
Lemma split_documents_under (legal_data : json) (documents : list json) :
  split_documents legal_data = Ok documents ->
  Forall (fun chunk => exists path, under path chunk) documents.
Proof.
  unfold split_documents.
  pose (m := fun chunks : list json =>
               lagen <- get legal_data "lagen" (JDict []) ;;
               lagar <- get lagen "lagar" (JDict []) ;;
               lagar <- items lagar ;;
               for_each
                 (fun (entry : string * json) chunks =>
                    let (category, laws) := entry in
                    laws <- items laws ;;
                    for_each
                      (fun (entry : string * json) chunks =>
                         let (law_name, law_content) := entry in
                         process_law law_content [category; law_name] chunks)
                      laws chunks)
                 lagar chunks).
  assert (produces (fun chunk => exists path, under path chunk) m) as Hm.
  { unfold m.
    apply produces_pure. intros lagen _.
    apply produces_pure. intros lagar _.
    apply produces_pure. intros lagar' _.
    apply produces_for_each. intros [category laws] _.
    apply produces_pure. intros laws' _.
    apply produces_for_each. intros [law_name law] _.
    eapply produces_impl; [|apply process_law_under].
    intros chunk H. now exists [category; law_name]. }
  intros H. now apply (proj2 Hm).
Qed.

End LawShape.

(** ** Loops that return *)

Lemma for_each_returns {A S} (body : A -> S -> outcome S) (xs : list A) :
  (forall x, In x xs -> forall s, exists s', body x s = Ok s') ->
  forall s, exists s', for_each body xs s = Ok s'.
Proof.
  induction xs as [|x xs IH]; intros Hbody s; simpl.
  - now exists s.
  - destruct (Hbody x (or_introl eq_refl) s) as [s' ->]. simpl.
    apply IH. intros y Hy. apply Hbody. now right.
Qed.

Lemma comprehension_returns {A B} (f : A -> outcome B) (xs : list A) :
  (forall x, In x xs -> exists y, f x = Ok y) ->
  exists ys, comprehension f xs = Ok ys.
Proof.
  induction xs as [|x xs IH]; intros Hf; simpl.
  - now exists [].
  - destruct (Hf x (or_introl eq_refl)) as [y ->]. simpl.
    destruct IH as [ys ->]; [intros z Hz; apply Hf; now right|].
    simpl. now eexists.
Qed.

Lemma In_enumerate {A} (xs : list A) (start i : Z) (x : A) :
  In (i, x) (enumerate start xs) -> In x xs.
Proof.
  revert start; induction xs as [|y xs IH]; intros start; simpl.
  - intros [].
  - intros [[= _ ->] | H]; [now left | right; now apply (IH (start + 1)%Z)].
Qed.

(** ** The calls of [add_texts] *)

Module StoreProofs.
Import Store.

Lemma add_document_call (entry : Z * json) (calls0 calls : list (json * json)) :
  add_document entry calls0 = Ok calls ->
  exists call, calls = (calls0 ++ [call])%list /\ call_of entry call.
Proof.
  destruct entry as [idx doc]. unfold add_document. intros H.
  destruct (getitem doc "content") as [content|] eqn:Hc;
    cbn [bind] in H; [|discriminate].
  destruct (getitem doc "metadata") as [metadata|] eqn:Hm;
    cbn [bind] in H; [|discriminate].
  destruct metadata as [| | | | |d]; cbn [with_chunk_id bind] in H;
    try discriminate.
  injection H as <-. eexists. split; [reflexivity|].
  unfold call_of, chunk_id, chunk_meta. cbn [fst snd getitem].
  rewrite Hc, Hm, lookup_store_same. cbn [bind getitem].
  repeat split. intros key Hkey.
  rewrite lookup_store_other by congruence. reflexivity.
Qed.

Lemma add_documents_calls (documents : list json) (start : Z)
    (calls0 calls : list (json * json)) :
  for_each add_document (enumerate start documents) calls0 = Ok calls ->
  exists new,
    calls = (calls0 ++ new)%list
    /\ Forall2 call_of (enumerate start documents) new.
Proof.
  revert start calls0; induction documents as [|doc documents IH];
    intros start calls0; cbn [enumerate for_each].
  - intros [= <-]. exists []. split; [now rewrite app_nil_r | constructor].
  - destruct (add_document (start, doc) calls0) as [calls1|] eqn:H1;
      cbn [bind]; [|discriminate].
    intros H. apply add_document_call in H1 as [call [-> Hcall]].
    apply IH in H as [new [-> Hnew]].
    exists (call :: new). split; [now rewrite <- app_assoc|].
    now constructor.
Qed.

Lemma chunk_id_inj (i j : Z) :
  Ok (JStr ("chunk_" ++ str_of_int i)) = Ok (JStr ("chunk_" ++ str_of_int j))
  -> i = j.
Proof. intros [= H]. now apply str_of_int_inj. Qed.

Lemma calls_chunk_ids (entries : list (Z * json))
    (calls : list (json * json)) :
  Forall2 call_of entries calls ->
  map chunk_id calls
  = map (fun i => Ok (JStr ("chunk_" ++ str_of_int i))) (map fst entries).
Proof.
  induction 1 as [|entry call entries calls [_ [Hid _]] _ IH];
    cbn [map]; [reflexivity|].
  now rewrite Hid, IH.
Qed.

(** A document with a content and a dictionary of metadata is taken. *)
Lemma add_documents_return (documents : list json) :
  Forall (fun doc =>
            exists content metadata,
              getitem doc "content" = Ok content
              /\ getitem doc "metadata" = Ok (JDict metadata))
    documents ->
  forall start calls0,
    exists calls,
      for_each add_document (enumerate start documents) calls0 = Ok calls.
Proof.
  intros Hall start calls0. apply for_each_returns.
  intros [idx doc] Hin calls. apply In_enumerate in Hin.
  rewrite Forall_forall in Hall.
  destruct (Hall doc Hin) as [content [metadata [Hc Hm]]].
  unfold add_document. rewrite Hc, Hm. cbn [bind with_chunk_id].
  now eexists.
Qed.

Lemma Forall2_enumerate {A B} (R : Z * A -> B -> Prop) (xs : list A)
    (ys : list B) (start : Z) :
  Forall2 R (enumerate start xs) ys ->
  Forall2 (fun x y => exists i, R (i, x) y) xs ys.
Proof.
  revert start ys; induction xs as [|x xs IH]; intros start ys;
    cbn [enumerate]; intros H; inversion H; subst; constructor.
  - now exists start.
  - now apply (IH (start + 1)%Z).
Qed.

End StoreProofs.

(** ** The loop of [read_documents] *)

Module ReaderProofs.
Import Reader.

Lemma read_blobs (blobs : list Blob) (all_documents : list json) :
  for_each read_blob blobs all_documents
  = (parts <- comprehension documents_of (filter is_json blobs) ;;
     Ok (all_documents ++ List.concat parts)%list).
Proof.
  revert all_documents; induction blobs as [|blob blobs IH];
    intros all_documents; cbn [for_each filter].
  - cbn. now rewrite app_nil_r.
  - unfold read_blob at 1, is_json at 1.
    destruct (endswith (name blob) ".json"); cbn [bind].
    + cbn [comprehension]. unfold documents_of at 1.
      destruct (loaded blob) as [legal_data|e]; cbn [bind]; [|reflexivity].
      destruct (split_documents legal_data) as [documents|e]; cbn [bind];
        [|reflexivity].
      rewrite IH.
      destruct (comprehension documents_of (filter is_json blobs));
        cbn [bind List.concat]; [|reflexivity].
      now rewrite app_assoc.
    + apply IH.
Qed.

Lemma comprehension_raises {A B} (f : A -> outcome B) (xs : list A)
    (x : A) (e : exn) :
  In x xs -> f x = Raise e -> exists e', comprehension f xs = Raise e'.
Proof.
  induction xs as [|y xs IH]; intros Hin Hx; [destruct Hin|].
  cbn [comprehension]. destruct Hin as [-> | Hin].
  - rewrite Hx. now exists e.
  - destruct (f y); cbn [bind]; [|now eexists].
    destruct (IH Hin Hx) as [e' ->]. now exists e'.
Qed.

Lemma comprehension_values {A B} (f : A -> outcome B) (g : A -> B)
    (xs : list A) :
  (forall x, In x xs -> f x = Ok (g x)) ->
  comprehension f xs = Ok (map g xs).
Proof.
  induction xs as [|x xs IH]; intros Hf; cbn [comprehension map].
  - reflexivity.
  - rewrite (Hf x (or_introl eq_refl)). cbn [bind].
    rewrite IH by (intros y Hy; apply Hf; now right). reflexivity.
Qed.

End ReaderProofs.

(** ** Laws with missing keys *)

Module TolerantProofs.
Import Shape.

Lemma get_dict (d : list (string * json)) (key : string) (default : json) :
  exists v, get (JDict d) key default = Ok v.
Proof. unfold get. destruct (lookup key d); now eexists. Qed.

Lemma get_absent_or (ok : json -> bool) (d : list (string * json))
    (key : string) (default : json) :
  absent_or ok key d = true -> ok default = true ->
  exists v, get (JDict d) key default = Ok v /\ ok v = true.
Proof.
  unfold absent_or, get. destruct (lookup key d); intros H Hd; now eexists.
Qed.

Lemma getitem_present (d : list (string * json)) (key : string) :
  present key d = true -> exists v, getitem (JDict d) key = Ok v.
Proof.
  unfold present, getitem.
  destruct (lookup key d); [now eexists | discriminate].
Qed.

Ltac got :=
  match goal with
  | |- context [get (JDict ?d) ?key ?default] =>
      let v := fresh "v" in
      destruct (get_dict d key default) as [v ->]; cbn [bind]
  end.

Lemma counted_count (v : json) :
  counted v = true ->
  exists count, (x <- first v ;; get x "count" (JInt 0)) = Ok count.
Proof.
  destruct v as [| | | |[|[| | | | |d] l]|]; try discriminate.
  intros _. cbn [first bind]. apply get_dict.
Qed.

Lemma section_chunk_returns info dc ds section_path :
  absent_or (list_of is_dict) "amendments" ds = true ->
  absent_or counted "case_law" ds = true ->
  absent_or counted "citations" ds = true ->
  exists chunk,
    Main.section_chunk info (JDict dc) (JDict ds) section_path = Ok chunk.
Proof.
  intros Ha Hl Hc. unfold Main.section_chunk.
  destruct (get_dict ds "text" (JStr "")) as [v1 ->]; cbn [bind].
  destruct (get_dict dc "title" JNull) as [v2 ->]; cbn [bind].
  destruct (get_dict ds "number" JNull) as [v3 ->]; cbn [bind].
  destruct (get_absent_or _ ds "amendments" (JList []) Ha eq_refl)
    as [am [-> Ham]]; cbn [bind].
  destruct am as [| | | |am|]; try discriminate. cbn [iter bind].
  destruct (comprehension_returns (fun a => get a "law" JNull) am)
    as [laws ->].
  { intros a Hin. cbn [list_of] in Ham.
    rewrite forallb_forall in Ham. specialize (Ham a Hin).
    destruct a; try discriminate. apply get_dict. }
  cbn [bind].
  destruct (get_absent_or _ ds "case_law" (JList [JDict []]) Hl eq_refl)
    as [cl [-> Hcl]]; cbn [bind].
  destruct (counted_count cl Hcl) as [n1 Hn1].
  destruct (first cl) as [x1|]; cbn [bind] in Hn1 |- *; [|discriminate].
  rewrite Hn1. cbn [bind].
  destruct (get_absent_or _ ds "citations" (JList [JDict []]) Hc eq_refl)
    as [ci [-> Hci]]; cbn [bind].
  destruct (counted_count ci Hci) as [n2 Hn2].
  destruct (first ci) as [x2|]; cbn [bind] in Hn2 |- *; [|discriminate].
  rewrite Hn2. cbn [bind]. now eexists.
Qed.

Lemma comment_chunk_returns info ds dcomment section_path :
  exists chunk,
    Main.comment_chunk info (JDict ds) (JDict dcomment) section_path
    = Ok chunk.
Proof. unfold Main.comment_chunk. repeat got. now eexists. Qed.

Lemma para_chunk_returns info ds dp section_path i :
  exists chunk,
    para_chunk info (JDict ds) (JDict dp) section_path i = Ok chunk.
Proof. unfold para_chunk. repeat got. now eexists. Qed.

Lemma point_chunk_returns info ds point section_path i j :
  exists chunk,
    Main.point_chunk info (JDict ds) point section_path i j = Ok chunk.
Proof. unfold Main.point_chunk. repeat got. now eexists. Qed.

Lemma process_paragraph_returns info ds section_path i paragraph chunks :
  paragraph_ok paragraph = true ->
  exists chunks',
    process_paragraph info (JDict ds) section_path (i, paragraph) chunks
    = Ok chunks'.
Proof.
  destruct paragraph as [| | | | |dp]; try discriminate.
  cbn [paragraph_ok]. intros Hp. unfold process_paragraph.
  destruct (para_chunk_returns info ds dp section_path i) as [chunk ->].
  cbn [bind].
  destruct (get_absent_or _ dp "points" (JList []) Hp eq_refl)
    as [points [-> Hpoints]]; cbn [bind].
  destruct points as [| | | |points|]; try discriminate. cbn [iter bind].
  apply for_each_returns. intros [j point] _ s.
  destruct (point_chunk_returns info ds point section_path i j)
    as [chunk' ->].
  cbn [bind]. now eexists.
Qed.

Lemma process_section_returns info dc chapter_path section chunks :
  section_ok section = true ->
  exists chunks',
    process_section info (JDict dc) chapter_path section chunks = Ok chunks'.
Proof.
  destruct section as [| | | | |ds]; try discriminate.
  cbn [section_ok]. rewrite !andb_true_iff.
  intros [[[[[Hn Ha] Hl] Hc] Hco] Hp]. unfold process_section.
  destruct (getitem_present ds "number" Hn) as [number ->]. cbn [bind].
  destruct (section_chunk_returns info dc ds
              (List.app chapter_path ["Section " ++ str number]) Ha Hl Hc)
    as [chunk ->].
  cbn [bind].
  destruct (get_absent_or _ ds "comments" (JList []) Hco eq_refl)
    as [comments [-> Hcomments]]; cbn [bind].
  destruct comments as [| | | |comments|]; try discriminate.
  cbn [iter bind].
  destruct (for_each_returns
              (fun comment chunks0 =>
                 chunk0 <- Main.comment_chunk info (JDict ds) comment
                             (List.app chapter_path
                                ["Section " ++ str number]) ;;
                 Ok (append chunk0 chunks0))
              comments) with (s := append chunk chunks) as [chunks1 ->].
  { intros comment Hin s. cbn [list_of] in Hcomments.
    rewrite forallb_forall in Hcomments. specialize (Hcomments _ Hin).
    destruct comment as [| | | | |dcomment]; try discriminate.
    destruct (comment_chunk_returns info ds dcomment
                (List.app chapter_path ["Section " ++ str number]))
      as [chunk' ->].
    cbn [bind]. now eexists. }
  cbn [bind].
  destruct (get_absent_or _ ds "paragraphs" (JList []) Hp eq_refl)
    as [paragraphs [-> Hparagraphs]]; cbn [bind].
  destruct paragraphs as [| | | |paragraphs|]; try discriminate.
  cbn [iter bind].
  apply for_each_returns. intros [i paragraph] Hin s.
  apply In_enumerate in Hin. cbn [list_of] in Hparagraphs.
  rewrite forallb_forall in Hparagraphs.
  apply process_paragraph_returns. now apply Hparagraphs.
Qed.

Lemma process_chapter_returns info path chapter chunks :
  chapter_ok chapter = true ->
  exists chunks', process_chapter info path chapter chunks = Ok chunks'.
Proof.
  destruct chapter as [| | | | |dc]; try discriminate.
  cbn [chapter_ok]. rewrite andb_true_iff. intros [Hn Hs].
  unfold process_chapter.
  destruct (getitem_present dc "number" Hn) as [number ->]. cbn [bind].
  destruct (get_absent_or _ dc "sections" (JList []) Hs eq_refl)
    as [sections [-> Hsections]]; cbn [bind].
  destruct sections as [| | | |sections|]; try discriminate.
  cbn [iter bind].
  apply for_each_returns. intros section Hin s.
  cbn [list_of] in Hsections. rewrite forallb_forall in Hsections.
  apply process_section_returns. now apply Hsections.
Qed.

Lemma law_metadata_returns d :
  absent_or metadata_ok "metadata" d = true ->
  exists info, law_metadata (JDict d) = Ok info.
Proof.
  intros Hm. unfold law_metadata.
  destruct (get_dict d "id" JNull) as [v1 ->]; cbn [bind].
  destruct (get_dict d "title" JNull) as [v2 ->]; cbn [bind].
  destruct (get_dict d "short_title" JNull) as [v3 ->]; cbn [bind].
  destruct (get_absent_or _ d "metadata" (JDict []) Hm eq_refl)
    as [metadata [-> Hmetadata]]; cbn [bind].
  destruct metadata as [| | | | |dm]; try discriminate.
  cbn [metadata_ok] in Hmetadata.
  destruct (get_dict dm "department" JNull) as [v4 ->]; cbn [bind].
  destruct (get_dict dm "issued_date" JNull) as [v5 ->]; cbn [bind].
  destruct (get_absent_or _ dm "last_amended" (JDict []) Hmetadata eq_refl)
    as [la [-> Hla]]; cbn [bind].
  destruct la as [| | | | |dl]; try discriminate.
  destruct (get_dict dl "sfs" JNull) as [v6 ->]; cbn [bind].
  now eexists.
Qed.

Lemma process_law_returns law path chunks :
  law_ok law = true ->
  exists chunks', process_law law path chunks = Ok chunks'.
Proof.
  destruct law as [| | | | |d]; try discriminate.
  cbn [law_ok]. rewrite andb_true_iff. intros [Hm Hc].
  unfold process_law.
  destruct (law_metadata_returns d Hm) as [info ->]. cbn [bind].
  destruct (get_absent_or _ d "chapters" (JList []) Hc eq_refl)
    as [chapters [-> Hchapters]]; cbn [bind].
  destruct chapters as [| | | |chapters|]; try discriminate.
  cbn [iter bind].
  apply for_each_returns. intros chapter Hin s.
  cbn [list_of] in Hchapters. rewrite forallb_forall in Hchapters.
  apply process_chapter_returns. now apply Hchapters.
Qed.

End TolerantProofs.

(** ** The query loop *)

Module SessionProofs.
Import Session.

Lemma query_loop_history {A} (query_llm : string -> A)
    (inputs : list string) (session_history : list (string * A)) :
  fst (query_loop query_llm inputs session_history)
  = (session_history
       ++ map (fun q => (q, query_llm q))
            (filter (fun q => (3 <=? String.length q)%nat)
               (until_exit (map strip inputs))))%list.
Proof.
  revert session_history; induction inputs as [|line rest IH];
    intros session_history; cbn [query_loop map until_exit].
  - cbn. now rewrite app_nil_r.
  - unfold is_exit. destruct (String.eqb (lower (strip line)) "exit").
    + cbn. now rewrite app_nil_r.
    + cbn [filter]. rewrite Nat.ltb_antisym.
      destruct (3 <=? String.length (strip line))%nat; cbn [negb map].
      * rewrite IH, <- app_assoc. reflexivity.
      * apply IH.
Qed.

Lemma query_loop_ending {A} (query_llm : string -> A)
    (inputs : list string) (session_history : list (string * A)) :
  snd (query_loop query_llm inputs session_history) = Exited
  <-> exists line, In line inputs /\ is_exit (strip line) = true.
Proof.
  revert session_history; induction inputs as [|line rest IH];
    intros session_history; cbn [query_loop].
  - split; [discriminate | intros [line [[] _]]].
  - unfold is_exit at 1.
    destruct (String.eqb (lower (strip line)) "exit") eqn:E.
    + split; [intros _ | reflexivity]. exists line. split; [now left|exact E].
    + assert (forall h,
                snd (query_loop query_llm rest h) = Exited
                <-> exists l, In l (line :: rest) /\ is_exit (strip l) = true)
        as Hrest.
      { intros h. rewrite IH. split.
        - intros [l [Hin Hl]]. exists l. split; [now right | exact Hl].
        - intros [l [[<- | Hin] Hl]].
          + unfold is_exit in Hl. congruence.
          + now exists l. }
      destruct (String.length (strip line) <? 3)%nat; apply Hrest.
Qed.

End SessionProofs.
(** ** Where the chunks of any law value sit *)

Module PlaceProofs.
Import Shape.

Ltac step H :=
  match type of H with
  | bind ?e _ = Ok _ =>
      let E := fresh "E" in
      destruct e eqn:E; cbn [bind] in H; [|discriminate H]
  end.

Lemma loop_over_intro (d : json) (key : string) (v : json)
    (l : list json) :
  get d key (JList []) = Ok v -> iter v = Ok l -> loop_over d key = Ok l.
Proof. intros Hget Hiter. unfold loop_over. now rewrite Hget. Qed.

Lemma section_chunk_sited info chapter section section_path chunk :
  Main.section_chunk info chapter section section_path = Ok chunk ->
  sited section_path AtSection chunk.
Proof.
  unfold Main.section_chunk. intros H. repeat step H. injection H as <-.
  eexists _, _. cbn [tail]. now rewrite string_app_nil_r.
Qed.

Lemma comment_chunk_sited info section comment section_path chunk :
  section_path <> [] ->
  Main.comment_chunk info section comment section_path = Ok chunk ->
  sited section_path AtComment chunk.
Proof.
  unfold Main.comment_chunk. intros Hne H. repeat step H. injection H as <-.
  eexists _, _. cbn [tail]. now rewrite join_snoc_nonempty.
Qed.

Lemma para_chunk_sited info section paragraph section_path i chunk :
  section_path <> [] ->
  para_chunk info section paragraph section_path i = Ok chunk ->
  sited section_path (AtParagraph i) chunk.
Proof.
  unfold para_chunk. intros Hne H. repeat step H. injection H as <-.
  eexists _, _. cbn [tail]. now rewrite join_snoc_nonempty.
Qed.

Lemma point_chunk_sited info section point section_path i j chunk :
  section_path <> [] ->
  Main.point_chunk info section point section_path i j = Ok chunk ->
  sited section_path (AtPoint i j) chunk.
Proof.
  unfold Main.point_chunk. intros Hne H. repeat step H. injection H as <-.
  eexists _, _. cbn [tail].
  rewrite join_snoc2_nonempty by exact Hne.
  reflexivity.
Qed.

(** The chunks of paragraph [i]: the paragraph, then its points. *)
Lemma process_paragraph_sited info section section_path i paragraph :
  section_path <> [] ->
  produces
    (fun chunk =>
       sited section_path (AtParagraph i) chunk
       \/ exists points point j,
            loop_over paragraph "points" = Ok points
            /\ In (j, point) (enumerate 1 points)
            /\ sited section_path (AtPoint i j) chunk)
    (process_paragraph info section section_path (i, paragraph)).
Proof.
  intros Hne. unfold process_paragraph.
  apply produces_pure. intros chunk Hchunk.
  apply (produces_emit _ chunk
           (fun chunks =>
              points <- get paragraph "points" (JList []) ;;
              points <- iter points ;;
              for_each _ (enumerate 1 points) chunks)).
  - left. eapply para_chunk_sited; eassumption.
  - apply produces_pure. intros points Hget.
    apply produces_pure. intros points' Hiter.
    apply produces_for_each. intros [j point] Hin.
    apply produces_pure. intros chunk' Hchunk'.
    apply (produces_emit _ chunk' (fun chunks => Ok chunks)).
    + right. exists points', point, j.
      split; [now apply (loop_over_intro _ _ points)|].
      split; [exact Hin|].
      eapply point_chunk_sited; eassumption.
    + apply produces_skip.
Qed.

(** The chunks of a section sit at places the section has, under the
    value of its [number]. *)
Lemma process_section_sited info chapter chapter_path section :
  produces
    (fun chunk =>
       exists number p,
         getitem section "number" = Ok number
         /\ within section p
         /\ sited (List.app chapter_path ["Section " ++ str number]) p chunk)
    (process_section info chapter chapter_path section).
Proof.
  unfold process_section.
  apply produces_pure. intros number Hnumber.
  assert (List.app chapter_path ["Section " ++ str number] <> []) as Hne
    by (destruct chapter_path; discriminate).
  apply produces_pure. intros chunk Hchunk.
  apply (produces_emit _ chunk
           (fun chunks =>
              comments <- get section "comments" (JList []) ;;
              comments <- iter comments ;;
              chunks <- for_each _ comments chunks ;;
              paragraphs <- get section "paragraphs" (JList []) ;;
              paragraphs <- iter paragraphs ;;
              for_each _ (enumerate 1 paragraphs) chunks)).
  - exists number, AtSection. split; [exact Hnumber|]. split; [exact I|].
    eapply section_chunk_sited; eassumption.
  - apply produces_pure. intros comments Hget.
    apply produces_pure. intros comments' Hiter.
    apply (produces_seq _ (for_each _ comments')
             (fun chunks =>
                paragraphs <- get section "paragraphs" (JList []) ;;
                paragraphs <- iter paragraphs ;;
                for_each _ (enumerate 1 paragraphs) chunks)).
    + apply produces_for_each. intros comment Hin.
      apply produces_pure. intros chunk' Hchunk'.
      apply (produces_emit _ chunk' (fun chunks => Ok chunks)).
      * exists number, AtComment. split; [exact Hnumber|]. split.
        -- exists comments', comment.
           split; [now apply (loop_over_intro _ _ comments) | exact Hin].
        -- eapply comment_chunk_sited; eassumption.
      * apply produces_skip.
    + apply produces_pure. intros paragraphs Hget'.
      apply produces_pure. intros paragraphs' Hiter'.
      assert (loop_over section "paragraphs" = Ok paragraphs') as Hloop
        by now apply (loop_over_intro _ _ paragraphs).
      apply produces_for_each. intros [i paragraph] Hin.
      eapply produces_impl;
        [|apply process_paragraph_sited; exact Hne].
      intros c [Hsited | [points [point [j [Hpoints [Hj Hsited]]]]]].
      * exists number, (AtParagraph i). split; [exact Hnumber|].
        split; [|exact Hsited].
        exists paragraphs', paragraph. now split.
      * exists number, (AtPoint i j). split; [exact Hnumber|].
        split; [|exact Hsited].
        exists paragraphs', paragraph, points, point. now repeat split.
Qed.

Lemma sited_path (category law_name chapter section : string) (p : place)
    (chunk : json) :
  sited [category; law_name; "Chapter " ++ chapter; "Section " ++ section]
    p chunk ->
  path_of chunk
  = Some (category ++ " > " ++ law_name ++ " > Chapter " ++ chapter
            ++ " > Section " ++ section ++ tail p).
Proof.
  intros [content [rest ->]]. unfold path_of, chunk_meta, join.
  cbn [getitem lookup String.eqb Ascii.eqb Bool.eqb bind List.app].
  cbn [String.concat]. now rewrite !string_app_assoc.
Qed.

Lemma process_law_placed (category law_name : string) (law : json) :
  produces (placed category law_name law)
    (process_law law [category; law_name]).
Proof.
  unfold process_law.
  apply produces_pure. intros info _.
  apply produces_pure. intros chapters Hget.
  apply produces_pure. intros chapters' Hiter.
  assert (loop_over law "chapters" = Ok chapters') as Hchapters
    by now apply (loop_over_intro _ _ chapters).
  apply produces_for_each. intros chapter Hchapter.
  unfold process_chapter.
  apply produces_pure. intros chapter_number Hcn.
  apply produces_pure. intros sections Hget'.
  apply produces_pure. intros sections' Hiter'.
  assert (loop_over chapter "sections" = Ok sections') as Hsections
    by now apply (loop_over_intro _ _ sections).
  apply produces_for_each. intros section Hsection.
  eapply produces_impl; [|apply process_section_sited].
  intros chunk [section_number [p [Hsn [Hin Hsited]]]].
  exists chapters', chapter, chapter_number, sections', section,
    section_number, p.
  repeat (split; [assumption|]).
  apply sited_path. exact Hsited.
Qed.

End PlaceProofs.


(** ** Further properties of the spider *)

Import Crawl.

(** X1.  When [urlparse] returns on the URL of the page and on every
    link, and [urljoin] and [Request] return on every link that passes
    the test against the netloc of the page, [parse] requests exactly
    the links that pass the test, each joined to the URL of the page,
    in the order of the page, and ends without an exception. *)
Theorem parse_requests_in_order
    (urlparse : string -> outcome SplitResult)
    (urljoin : string -> string -> outcome string)
    (new_request : string -> outcome string)
    (url : string) (all_links : list string) (page : SplitResult)
    (parsed : string -> SplitResult) (joined requested : string -> string) :
  urlparse url = Ok page ->
  (forall href, In href all_links ->
     served urlparse urljoin new_request (netloc page) url parsed joined
       requested href) ->
  parse urlparse urljoin new_request url all_links
  = (map (fun href => requested (joined href))
       (filter (fun href => follow_link (netloc page) (parsed href) href)
          all_links),
     None).
Proof.
  intros Hpage Hok. unfold parse. rewrite Hpage.
  now apply ClassifierProofs.parse_links_served.
Qed.

(** Of a link with [/api/] in its query and a plain link of the site,
    the plain one is requested. *)
Lemma parse_requests_in_order_witness :
  parse Examples.urlparse_plain Examples.urljoin_plain
    Examples.new_request_checked "https://lagen.nu/"
    [Examples.query_link; Examples.about_link]
  = ([Examples.about_link], None).
Proof.
  apply (parse_requests_in_order Examples.urlparse_plain
           Examples.urljoin_plain Examples.new_request_checked
           "https://lagen.nu/" [Examples.query_link; Examples.about_link]
           (urlsplit "https://lagen.nu/") urlsplit (fun h => h)
           (fun h => h)).
  - reflexivity.
  - intros href [<- | [<- | []]].
    + split; [reflexivity | discriminate].
    + split; [reflexivity|]. intros _. split; reflexivity.
Defined.

(** X2.  When [urlparse] raises on the URL of the page, [parse] ends
    with that exception and requests nothing.  Otherwise, at the first
    link on which [urlparse] raises, or which passes the test and on
    which [urljoin] or [Request] raises, [parse] ends with that
    exception: it has requested the links before it that pass the test
    and requests none of the links after it. *)
Theorem parse_stops_at_exception
    (urlparse : string -> outcome SplitResult)
    (urljoin : string -> string -> outcome string)
    (new_request : string -> outcome string) (url : string) :
  (forall all_links e,
     urlparse url = Raise e ->
     parse urlparse urljoin new_request url all_links = ([], Some e))
  /\ (forall page before href after e parsed joined requested,
        urlparse url = Ok page ->
        (forall h, In h before ->
           served urlparse urljoin new_request (netloc page) url parsed
             joined requested h) ->
        refused urlparse urljoin new_request (netloc page) url parsed
          joined href e ->
        parse urlparse urljoin new_request url
          (before ++ href :: after)%list
        = (map (fun h => requested (joined h))
             (filter (fun h => follow_link (netloc page) (parsed h) h)
                before),
           Some e)).
Proof.
  split.
  - intros all_links e Hpage. unfold parse. now rewrite Hpage.
  - intros page before href after e parsed joined requested Hpage Hok
      Hraise.
    unfold parse. rewrite Hpage.
    now apply ClassifierProofs.parse_links_refused.
Qed.

(** A mail address between two plain links: [Request] raises on it and
    the second plain link is never requested. *)
Lemma parse_stops_at_exception_witness :
  parse Examples.urlparse_plain Examples.urljoin_plain
    Examples.new_request_checked "https://lagen.nu/"
    [Examples.about_link; Examples.mail_link; Examples.about_link]
  = ([Examples.about_link], Some ValueError).
Proof.
  apply (proj2 (parse_stops_at_exception Examples.urlparse_plain
                  Examples.urljoin_plain Examples.new_request_checked
                  "https://lagen.nu/")
           (urlsplit "https://lagen.nu/") [Examples.about_link]
           Examples.mail_link [Examples.about_link] ValueError urlsplit
           (fun h => h) (fun h => h)).
  - reflexivity.
  - intros h [<- | []]. split; [reflexivity|]. intros _.
    split; reflexivity.
  - right. repeat split; try reflexivity. right. split; reflexivity.
Defined.

(** X3.  [parse_category] asks [response.follow] for a request for
    every link of the page that does not end in [.png], in the order of
    the page, each with the last segment of the page URL as category:
    for all of them when neither [urljoin] nor [Request] raises, and
    for those before the first link on which one of them raises
    otherwise; that exception ends the loop, so the links after it are
    not followed.  A link ends in [.png] when it is some text followed
    by [.png]. *)
Theorem category_links :
  (forall urljoin new_request url hrefs lagar joined requested,
     (forall href, In href hrefs ->
        Follow.followed urljoin new_request url joined requested href) ->
     snd (parse_category urljoin new_request url hrefs lagar)
     = (map (fun href => (requested (joined href), last_segment url))
          (filter (fun href => negb (endswith href ".png")) hrefs),
        None))
  /\ (forall urljoin new_request url before href after lagar joined
             requested e,
        (forall h, In h before ->
           Follow.followed urljoin new_request url joined requested h) ->
        Follow.unfollowed urljoin new_request url joined href e ->
        snd (parse_category urljoin new_request url
               (before ++ href :: after)%list lagar)
        = (map (fun h => (requested (joined h), last_segment url))
             (filter (fun h => negb (endswith h ".png")) before),
           Some e))
  /\ (forall href,
        endswith href ".png" = true
        <-> exists before, href = before ++ ".png").
Proof.
  split; [|split].
  - intros urljoin new_request url hrefs lagar joined requested Hok.
    cbn [parse_category snd].
    induction hrefs as [|href rest IH]; cbn [follow_laws filter map].
    + reflexivity.
    + rewrite IH by (intros h Hh; apply Hok; now right).
      destruct (endswith href ".png") eqn:E; cbn [negb]; [reflexivity|].
      destruct (Hok href (or_introl eq_refl) E) as [-> Hnew]. cbn [bind].
      now rewrite Hnew.
  - intros urljoin new_request url before href after lagar joined
      requested e Hok [Hpng Hraise].
    cbn [parse_category snd].
    induction before as [|h before IH];
      cbn [List.app follow_laws filter map].
    + rewrite Hpng. cbn [negb].
      destruct Hraise as [-> | [-> Hnew]]; cbn [bind]; [reflexivity|].
      now rewrite Hnew.
    + rewrite IH by (intros h' Hh'; apply Hok; now right).
      destruct (endswith h ".png") eqn:E; cbn [negb]; [reflexivity|].
      destruct (Hok h (or_introl eq_refl) E) as [-> Hnew]. cbn [bind].
      now rewrite Hnew.
  - intros href. apply endswith_suffix.
Qed.

(** A page with a law, an image, a mail address and a second law: the
    first law is requested, the image skipped, [Request] raises on the
    mail address and the second law is not followed. *)
Lemma category_links_witness :
  snd (parse_category Examples.urljoin_plain Examples.new_request_checked
         Examples.category_page_1 Follow.sample_hrefs init)
  = ([("https://lagen.nu/1998:204", "index")], Some ValueError).
Proof.
  apply (proj1 (proj2 category_links) Examples.urljoin_plain
           Examples.new_request_checked Examples.category_page_1
           ["https://lagen.nu/1998:204"; "https://lagen.nu/logo.png"]
           "mailto:info@lagen.nu" ["https://lagen.nu/1998:808"] init
           (fun h => h) (fun h => h) ValueError).
  - intros h [<- | [<- | []]].
    + intros _. split; reflexivity.
    + discriminate.
  - split; [reflexivity|]. right. split; reflexivity.
Defined.

(** X4.  The category of a page, the last segment of its URL, holds no
    slash, and the URL is that segment alone or after a slash; a URL
    that ends in a slash gives the empty category. *)
Theorem category_of_url (url : string) :
  has_char "/" (last_segment url) = false
  /\ (url = last_segment url
      \/ exists before, url = before ++ "/" ++ last_segment url)
  /\ last_segment (url ++ "/") = "".
Proof.
  unfold last_segment, split.
  destruct (last_split_from "/" "" url eq_refl) as [Hseg Hcase].
  repeat split; [exact Hseg | exact Hcase |].
  apply last_split_from_sep.
Qed.

(** X5.  In a crawl, [parse_law] does not raise on the response to a
    request [parse_category] made: the category the request carries has
    been registered and no callback removes a category. *)
Theorem parse_law_finds_category (s : Queue.state) (response : Response)
    (href category : string) :
  Queue.reachable s ->
  In (href, category) (Queue.pending s) ->
  lookup "category" (meta response) = Some category ->
  exists lagar', parse_law response (Queue.lagar s) = Ok lagar'.
Proof.
  intros Hr Hin Hmeta. unfold parse_law, insert. rewrite Hmeta.
  destruct (lookup category (Queue.lagar s)) as [laws|] eqn:E.
  - eexists. reflexivity.
  - exfalso. now apply (CrawlProofs.pending_registered s Hr href category).
Qed.

(** The law page requested from the first category page. *)
Lemma parse_law_finds_category_witness :
  exists lagar',
    parse_law Examples.law_page Examples.corpus_1 = Ok lagar'.
Proof.
  apply (parse_law_finds_category
           {| Queue.lagar := Examples.corpus_1;
              Queue.pending := [("https://lagen.nu/1998:204", "index")] |}
           Examples.law_page "https://lagen.nu/1998:204" "index").
  - apply (Queue.reachable_step Queue.start).
    + constructor.
    + apply (Queue.step_category Examples.urljoin_plain
               Examples.new_request_checked Examples.category_page_1
               ["https://lagen.nu/1998:204"] Queue.start).
  - now left.
  - reflexivity.
Defined.

(** X6.  Every law a crawl has stored was built by [parse_law] from a
    page whose URL ends in the name the law is stored under, and holds
    that name as its [id]. *)
Theorem stored_law_built (lagar : corpus) (category law_name : string)
    (law : json) :
  reachable lagar ->
  find_law lagar category law_name = Some law ->
  exists response,
    law = law_dict response
    /\ last_segment (url response) = law_name
    /\ get law "id" JNull = Ok (JStr law_name).
Proof.
  intros Hr Hfind. unfold find_law in Hfind.
  destruct (lookup category lagar) as [laws|] eqn:E; [|discriminate].
  apply lookup_In in E, Hfind.
  destruct (CrawlProofs.reachable_keys lagar Hr) as [_ Hall].
  destruct (Hall _ _ E) as [_ Hbuilt].
  destruct (Hbuilt _ _ Hfind) as [response [-> <-]].
  exists response. repeat split.
Qed.

Lemma stored_law_built_witness :
  exists response,
    law_dict Examples.law_page = law_dict response
    /\ last_segment (url response) = "1998:204"
    /\ get (law_dict Examples.law_page) "id" JNull = Ok (JStr "1998:204").
Proof.
  apply (stored_law_built Examples.corpus_2 "index" "1998:204").
  - apply (reachable_step Examples.corpus_1).
    + apply (reachable_step init); [constructor|].
      apply (category_parsed Examples.urljoin_plain
               Examples.new_request_checked Examples.category_page_1
               ["https://lagen.nu/1998:204"] init).
    + apply (law_parsed Examples.law_page). reflexivity.
  - reflexivity.
Defined.

(** X8.  [split_documents] does not raise on the data of a crawl: it
    returns, triple after triple, the chunks of the page each stored law
    was built from. *)
Theorem crawl_flattens (lagar : corpus) :
  reachable lagar ->
  exists parts,
    split_documents (data lagar) = Ok (List.concat parts)
    /\ Forall2 (fun t part =>
                  exists response,
                    snd t = law_dict response
                    /\ part = flatten (fst (fst t)) (snd (fst t)) response)
         (triples lagar) parts.
Proof.
  intros Hr.
  destruct (CrawlProofs.reachable_keys lagar Hr) as [_ Hall].
  destruct (CrawlProofs.comprehension_built (triples lagar))
    as [parts [Hparts Hshape]].
  - intros [[c n] law] Hin. apply CrawlProofs.In_triples in Hin
      as [laws [Hc Hl]].
    destruct (Hall _ _ Hc) as [_ Hbuilt].
    destruct (Hbuilt _ _ Hl) as [response [-> _]]. now exists response.
  - exists parts. split; [|exact Hshape].
    rewrite CrawlProofs.split_documents_by_triple, Hparts. reflexivity.
Qed.

(** The corpus with the sample law: its five chunks come out. *)
Lemma crawl_flattens_witness :
  exists parts,
    split_documents (data Samples.crawled) = Ok (List.concat parts)
    /\ Forall2 (fun t part =>
                  exists response,
                    snd t = law_dict response
                    /\ part = flatten (fst (fst t)) (snd (fst t)) response)
         (triples Samples.crawled) parts
    /\ List.concat parts
       = flatten "index" "1998:204" Samples.law_response
    /\ List.length (List.concat parts) = 5.
Proof.
  destruct (crawl_flattens Samples.crawled) as [parts [Hsplit Hparts]].
  - apply (reachable_step Examples.corpus_1).
    + apply (reachable_step init); [constructor|].
      apply (category_parsed Examples.urljoin_plain
               Examples.new_request_checked Examples.category_page_1
               ["https://lagen.nu/1998:204"] init).
    + apply (law_parsed Samples.law_response). reflexivity.
  - exists parts. split; [exact Hsplit|]. split; [exact Hparts|].
    assert (split_documents (data Samples.crawled)
            = Ok (flatten "index" "1998:204" Samples.law_response))
      as Hrun by reflexivity.
    rewrite Hrun in Hsplit. injection Hsplit as <-.
    split; reflexivity.
Defined.

(** X9.  When [parse_law] returns, the categories of the corpus and
    their order are as before, and in the category of the law the names
    are as before when the name was there, and followed by the new name
    when it was not: a law parsed again keeps its place. *)
Theorem parse_law_keeps_order (response : Response) (lagar lagar' : corpus) :
  parse_law response lagar = Ok lagar' ->
  keys lagar' = keys lagar
  /\ exists category laws laws',
       lookup "category" (meta response) = Some category
       /\ lookup category lagar = Some laws
       /\ lookup category lagar' = Some laws'
       /\ keys laws'
          = match lookup (last_segment (url response)) laws with
            | Some _ => keys laws
            | None => (keys laws ++ [last_segment (url response)])%list
            end.
Proof.
  unfold parse_law, insert.
  destruct (lookup "category" (meta response)) as [category|];
    [|discriminate].
  destruct (lookup category lagar) as [laws|] eqn:E; [|discriminate].
  intros [= <-]. split.
  - now rewrite keys_store, E.
  - exists category, laws,
      (store (last_segment (url response)) (law_dict response) laws).
    split; [reflexivity|]. split; [exact E|].
    split; [apply lookup_store_same | apply keys_store].
Qed.

Lemma parse_law_keeps_order_witness :
  keys Examples.corpus_2 = keys Examples.corpus_1
  /\ exists category laws laws',
       lookup "category" (meta Examples.law_page) = Some category
       /\ lookup category Examples.corpus_1 = Some laws
       /\ lookup category Examples.corpus_2 = Some laws'
       /\ keys laws'
          = match lookup (last_segment (url Examples.law_page)) laws with
            | Some _ => keys laws
            | None =>
                (keys laws ++ [last_segment (url Examples.law_page)])%list
            end.
Proof.
  apply (parse_law_keeps_order Examples.law_page). reflexivity.
Defined.

(** ** Further properties of the flattener and its callers *)

(** X10.  [process_law] only appends: given any list of chunks it
    returns that list followed by the chunks it returns on the empty
    list, and it raises on one list exactly when it raises on the
    other. *)
Theorem process_law_only_appends (law : json) (path : list string)
    (chunks : list json) :
  process_law law path chunks
  = (out <- process_law law path [] ;; Ok (chunks ++ out)%list).
Proof.
  destruct (law_metadata law) as [info|err] eqn:Hinfo.
  - apply (ProcessLaw.process_law_produces law path info Hinfo).
  - unfold process_law. now rewrite Hinfo.
Qed.

(** X11.  [process_law] returns on every law dictionary in which the
    chapters and sections have a [number] and every other key is either
    missing or holds a value of the type the builder gives it; the
    dictionaries [parse_law] builds are of that kind. *)
Theorem flatten_tolerates_missing_keys :
  (forall category law_name law,
     Shape.law_ok law = true ->
     exists out, law_chunks category law_name law = Ok out)
  /\ (forall response, Shape.law_ok (law_dict response) = true).
Proof.
  split.
  - intros category law_name law Hok.
    now apply TolerantProofs.process_law_returns.
  - intros response. unfold law_dict. cbn.
    rewrite forallb_forall. intros chapter Hin.
    apply in_map_iff in Hin as [c [<- _]]. cbn.
    rewrite forallb_forall. intros section Hin.
    apply in_map_iff in Hin as [s [<- _]]. cbn.
    rewrite !andb_true_iff. repeat split.
    + rewrite forallb_forall. intros a Ha.
      now apply in_map_iff in Ha as [x [<- _]].
    + rewrite forallb_forall. intros a Ha.
      now apply in_map_iff in Ha as [x [<- _]].
    + rewrite forallb_forall. intros p Hp.
      now apply in_map_iff in Hp as [x [<- _]].
Qed.

(** A law whose chapter and section hold a number and nothing else. *)
Lemma flatten_tolerates_missing_keys_witness :
  exists out, law_chunks "sfs" "1998:204" Shape.sparse_law = Ok out.
Proof.
  apply (proj1 flatten_tolerates_missing_keys "sfs" "1998:204"
           Shape.sparse_law).
  reflexivity.
Defined.

(** X12.  Whatever the law value, when [process_law] returns, every
    chunk it returns has the path
    [<category> > <law> > Chapter <n> > Section <m>] followed by nothing,
    by [ > Comment], by [ > Paragraph <i>] or by
    [ > Paragraph <i> > Point <j>], where [<n>] is [str] of the [number]
    of a chapter the loop over [law.get("chapters", [])] runs over,
    [<m>] is [str] of the [number] of a section the loop over the
    [sections] of that chapter runs over, a comment is there only when
    the loop over the [comments] of that section is not empty, [<i>] is
    the position, from 1, of a paragraph in the loop over its
    [paragraphs], and [<j>] the position, from 1, of a point in the loop
    over the [points] of that paragraph. *)
Theorem chunk_paths_placed (category law_name : string) (law : json)
    (out : list json) :
  law_chunks category law_name law = Ok out ->
  Forall (Shape.placed category law_name law) out.
Proof.
  intros Hout.
  destruct (PlaceProofs.process_law_placed category law_name law)
    as [_ Hall].
  apply Hall. exact Hout.
Qed.

(** The five chunks of the sample law sit at the section, its comment,
    its paragraph and the two points of the paragraph. *)
Lemma chunk_paths_placed_witness :
  Forall (Shape.placed "index" "1998:204" (law_dict Samples.law_response))
    (flatten "index" "1998:204" Samples.law_response)
  /\ map path_of (flatten "index" "1998:204" Samples.law_response)
     = map (fun p => Some ("index > 1998:204 > Chapter 1 > Section 5"
                             ++ tail p))
         [AtSection; AtComment; AtParagraph 1; AtPoint 1 1; AtPoint 1 2].
Proof.
  split.
  - apply (chunk_paths_placed "index" "1998:204"
             (law_dict Samples.law_response)).
    reflexivity.
  - reflexivity.
Defined.

(** X13.  When every blob named [*.json] loads and flattens,
    [read_documents] returns the chunks of those blobs, blob after blob
    in the order of the listing; the other blobs count for nothing. *)
Theorem read_documents_concat (blobs : list Reader.Blob)
    (documents : Reader.Blob -> list json) :
  (forall blob, In blob blobs -> Reader.is_json blob = true ->
                Reader.documents_of blob = Ok (documents blob)) ->
  Reader.read_documents (Ok blobs)
  = flat_map documents (filter Reader.is_json blobs).
Proof.
  intros Hall. unfold Reader.read_documents. cbn [bind].
  rewrite ReaderProofs.read_blobs.
  rewrite (ReaderProofs.comprehension_values _ documents).
  - cbn [bind List.app]. now rewrite flat_map_concat_map.
  - intros blob Hin. apply filter_In in Hin as [Hin Hjson].
    now apply Hall.
Qed.

(** X14.  When the listing of the bucket raises, or one blob named
    [*.json] fails to load or to flatten, [read_documents] returns the
    empty list: the chunks of the other blobs are lost with it. *)
Theorem read_documents_all_or_nothing :
  (forall e, Reader.read_documents (Raise e) = [])
  /\ (forall blobs blob e,
        In blob blobs -> Reader.is_json blob = true ->
        Reader.documents_of blob = Raise e ->
        Reader.read_documents (Ok blobs) = []).
Proof.
  split; [reflexivity|].
  intros blobs blob e Hin Hjson Hraise.
  unfold Reader.read_documents. cbn [bind].
  rewrite ReaderProofs.read_blobs.
  destruct (ReaderProofs.comprehension_raises Reader.documents_of
              (filter Reader.is_json blobs) blob e) as [e' ->];
    [now apply filter_In | exact Hraise | reflexivity].
Qed.

(** X15.  When the loop of [setup_vector_store] ends without an
    exception it has called [add_texts] once per document, in order,
    with the content of the document as text and with its metadata plus
    a [chunk_id] made of the index of the document, counted from 0; no
    two calls have the same [chunk_id]. *)
Theorem add_texts_chunk_ids (documents : list json)
    (calls : list (json * json)) :
  Store.add_texts_calls documents = Ok calls ->
  Forall2 Store.call_of (enumerate 0 documents) calls
  /\ NoDup (map Store.chunk_id calls).
Proof.
  unfold Store.add_texts_calls. intros H.
  apply StoreProofs.add_documents_calls in H as [new [-> Hnew]].
  cbn [List.app]. split; [exact Hnew|].
  rewrite (StoreProofs.calls_chunk_ids _ _ Hnew).
  apply NoDup_map_NoDup_ForallPairs; [|apply enumerate_indices_NoDup].
  intros i j _ _. apply StoreProofs.chunk_id_inj.
Qed.

(** X16.  [setup_vector_store] finds a content and a dictionary of
    metadata in every chunk [split_documents] returns, whatever the
    data: its loop calls [add_texts] once per chunk without raising
    [KeyError] or [TypeError], and each call has the path of its
    chunk. *)
Theorem chunks_fit_vector_store (legal_data : json)
    (documents : list json) :
  split_documents legal_data = Ok documents ->
  exists calls,
    Store.add_texts_calls documents = Ok calls
    /\ Forall2 (fun doc call =>
                  getitem (snd call) "path" = chunk_meta "path" doc)
         documents calls.
Proof.
  intros Hdocs. apply LawShape.split_documents_under in Hdocs.
  destruct (StoreProofs.add_documents_return documents) with
    (start := 0%Z) (calls0 := @nil (json * json)) as [calls Hcalls].
  - eapply Forall_impl; [|exact Hdocs].
    intros chunk [path Hunder]. now apply (LawShape.under_fields path).
  - exists calls. split; [exact Hcalls|].
    apply StoreProofs.add_documents_calls in Hcalls as [new [-> Hnew]].
    cbn [List.app]. apply StoreProofs.Forall2_enumerate in Hnew.
    eapply Forall2_impl; [|exact Hnew].
    intros doc call [i [_ [_ Hkeys]]]. cbn [snd] in Hkeys.
    apply Hkeys. discriminate.
Qed.

Lemma read_documents_concat_witness :
  Reader.read_documents (Ok [Samples.blob_notes; Samples.blob_data])
  = flat_map Samples.documents
      (filter Reader.is_json [Samples.blob_notes; Samples.blob_data]).
Proof.
  apply read_documents_concat.
  intros blob [<- | [<- | []]] Hjson; [discriminate Hjson | reflexivity].
Defined.

Lemma read_documents_all_or_nothing_witness :
  Reader.read_documents (Ok [Samples.blob_data; Samples.blob_broken]) = [].
Proof.
  apply (proj2 read_documents_all_or_nothing
           [Samples.blob_data; Samples.blob_broken] Samples.blob_broken
           ValueError).
  - right. now left.
  - reflexivity.
  - reflexivity.
Defined.

Lemma add_texts_chunk_ids_witness :
  Forall2 Store.call_of (enumerate 0 Samples.chunks) Samples.calls
  /\ NoDup (map Store.chunk_id Samples.calls).
Proof.
  apply add_texts_chunk_ids. reflexivity.
Defined.

Lemma chunks_fit_vector_store_witness :
  exists calls,
    Store.add_texts_calls Samples.chunks = Ok calls
    /\ Forall2 (fun doc call =>
                  getitem (snd call) "path" = chunk_meta "path" doc)
         Samples.chunks calls.
Proof.
  apply (chunks_fit_vector_store Samples.legal_data). reflexivity.
Defined.

(** X17.  The loop of [main] records, in order and each with its answer,
    the stripped lines entered before the first line that reads [exit]
    (in any letter case, blanks around it apart) that have at least
    three characters; it ends by [break] exactly when such a line is
    entered, and reads no line after it. *)
Theorem query_loop_records (A : Type) (query_llm : string -> A)
    (inputs : list string) :
  fst (Session.query_loop query_llm inputs [])
  = map (fun q => (q, query_llm q))
      (filter (fun q => (3 <=? String.length q)%nat)
         (Session.until_exit (map Session.strip inputs)))
  /\ (snd (Session.query_loop query_llm inputs []) = Session.Exited
      <-> exists line,
            In line inputs
            /\ Session.is_exit (Session.strip line) = true).
Proof.
  split.
  - now rewrite SessionProofs.query_loop_history.
  - apply SessionProofs.query_loop_ending.
Qed.
